(** * Verification of the matchmaking, rating and consistency services
    of the TicTacToe backend ([src/app/services]).

    Python floats of the compatibility scorer are modelled as exact
    rationals [Q]; the ELO computation of the skill calculator, which goes
    through [math.pow], is modelled over the reals [R].  Timestamps are
    integers counting microseconds (the resolution of [datetime]). *)

From Stdlib Require Import List String ZArith QArith Qabs Lia Lqa Bool.
From Stdlib Require Import Sorting.Permutation Sorting.Sorted.
From Stdlib Require Import Reals Lra.
Import ListNotations.

Open Scope Z_scope.

(** ** Matchmaking preferences ([MatchmakingPreferences]) *)

Record Prefs := mkPrefs {
  grid_sizes : list Z;
  max_rating_difference : Z;
  preferred_queue_type : string;
  max_wait_time : Z
}.

(** [to_json] writes [self.grid_sizes or [3]]; [from_json] reads it back.
    A stored preference blob is therefore the preference set with an empty
    grid list replaced by [[3]]. *)
Definition prefs_roundtrip (p : Prefs) : Prefs :=
  mkPrefs (match grid_sizes p with [] => [3] | l => l end)
          (max_rating_difference p) (preferred_queue_type p) (max_wait_time p).

(** The validation of [MatchmakingRequest] (pydantic schema): grid sizes
    non-empty and within [3,10], [50 <= max_rating_difference <= 1000],
    queue type one of three names, [30 <= max_wait_time <= 600]. *)
Definition valid_prefs (p : Prefs) : bool :=
  negb (match grid_sizes p with [] => true | _ => false end)
  && forallb (fun g => (3 <=? g) && (g <=? 10)) (grid_sizes p)
  && (50 <=? max_rating_difference p) && (max_rating_difference p <=? 1000)
  && existsb (String.eqb (preferred_queue_type p))
       ["ranked"; "casual"; "tournament"]%string
  && (30 <=? max_wait_time p) && (max_wait_time p <=? 600).

(** [set(a) & set(b)] is non-empty. *)
Definition grids_intersect (a b : list Z) : bool :=
  existsb (fun x => existsb (Z.eqb x) b) a.

(** ** Match compatibility scorer ([_calculate_match_compatibility]).
    [None] is the [ZeroDivisionError] raised by
    [rating_diff / max_acceptable_diff] when the divisor is [0]. *)
Definition calculate_match_compatibility (prefs1 prefs2 : Prefs)
    (rating1 rating2 : Z) : option Q :=
  let score0 := 0%Q in
  let score1 :=
    if grids_intersect (grid_sizes prefs1) (grid_sizes prefs2)
    then (score0 + (2 # 5))%Q else score0 in
  let rating_diff := Z.abs (rating1 - rating2) in
  let max_acceptable_diff :=
    Z.min (max_rating_difference prefs1) (max_rating_difference prefs2) in
  let score2 :=
    if rating_diff <=? max_acceptable_diff then
      if max_acceptable_diff =? 0 then None
      else
        let rating_score :=
          (1 - inject_Z rating_diff / inject_Z max_acceptable_diff)%Q in
        Some (score1 + (7 # 20) * rating_score)%Q
    else Some score1 in
  match score2 with
  | None => None
  | Some score2 =>
      let score3 :=
        if String.eqb (preferred_queue_type prefs1) (preferred_queue_type prefs2)
        then (score2 + (3 # 20))%Q else score2 in
      let wait_time_diff := Z.abs (max_wait_time prefs1 - max_wait_time prefs2) in
      Some (if wait_time_diff <=? 60 then (score3 + (1 # 10))%Q else score3)
  end.

(** ** Skill calculator ([SkillCalculator], [skill_calculator.py]) *)

(** [int(x)] on a Python float: truncation toward zero. *)
Definition py_int (x : R) : Z :=
  if Rle_dec 0 x then Int_part x else (- Int_part (- x))%Z.

Definition DEFAULT_RATING : Z := 1200.
Definition MIN_DEVIATION : R := 50.
Definition MAX_RATING_CHANGE : R := 50.

(** [_expected_score]: [1 / (1 + 10 ** ((rating_b - rating_a) / 400))]. *)
Definition expected_score (rating_a rating_b : Z) : R :=
  (1 / (1 + Rpower 10 (IZR (rating_b - rating_a) / 400)))%R.

Definition get_k_factor (games_played : Z) : Z :=
  if games_played <? 20 then 40
  else if games_played <? 100 then 20
  else 10.

Definition get_grid_size_modifier (grid_size : Z) : R :=
  if grid_size =? 3 then (8 / 10)%R
  else if grid_size =? 4 then 1%R
  else if 5 <=? grid_size then (12 / 10)%R
  else (8 / 10)%R.

(** [max(-MAX_RATING_CHANGE, min(MAX_RATING_CHANGE, change))] *)
Definition clamp_change (change : R) : R :=
  Rmax (- MAX_RATING_CHANGE) (Rmin MAX_RATING_CHANGE change).

(** The two rating changes computed by [calculate_rating_change], after
    clamping: [(winner_change, loser_change)]. *)
Definition rating_changes (winner_rating loser_rating winner_games loser_games
    grid_size : Z) : R * R :=
  let winner_expected := expected_score winner_rating loser_rating in
  let loser_expected := (1 - winner_expected)%R in
  let winner_actual := 1%R in
  let loser_actual := 0%R in
  let winner_k := get_k_factor winner_games in
  let loser_k := get_k_factor loser_games in
  let grid_modifier := get_grid_size_modifier grid_size in
  let winner_change :=
    (IZR winner_k * grid_modifier * (winner_actual - winner_expected))%R in
  let loser_change :=
    (IZR loser_k * grid_modifier * (loser_actual - loser_expected))%R in
  (clamp_change winner_change, clamp_change loser_change).

Definition calculate_rating_change (winner_rating loser_rating winner_games
    loser_games grid_size : Z) : Z * Z :=
  let '(winner_change, loser_change) :=
    rating_changes winner_rating loser_rating winner_games loser_games
      grid_size in
  let new_winner_rating := py_int (IZR winner_rating + winner_change) in
  let new_loser_rating := py_int (IZR loser_rating + loser_change) in
  (Z.max 100 new_winner_rating, Z.max 100 new_loser_rating).

(** A [PlayerRating] row; timestamps are optional instants. *)
Record PlayerRating := mkPlayerRating {
  pr_player_id : nat;
  overall_rating : Z;
  grid_3x3_rating : Z;
  grid_4x4_rating : Z;
  grid_5x5_rating : Z;
  games_played : Z;
  rating_deviation : R;
  last_game_at : option Z;
  peak_rating : Z;
  peak_rating_at : option Z;
  current_win_streak : Z;
  current_loss_streak : Z;
  best_win_streak : Z
}.

(** [_update_rating_record]; the [hasattr] test on
    [grid_{n}x{n}_rating] only succeeds for [n] in [3], [4], [5]. *)
Definition update_rating_record (rating : PlayerRating)
    (new_overall_rating grid_size : Z) (won : bool) (now : Z) : PlayerRating :=
  let old_rating := overall_rating rating in
  let rating_change := new_overall_rating - old_rating in
  let g3 := grid_3x3_rating rating in
  let g4 := grid_4x4_rating rating in
  let g5 := grid_5x5_rating rating in
  let '(g3, g4, g5) :=
    if grid_size =? 3 then (Z.max 100 (g3 + rating_change), g4, g5)
    else if grid_size =? 4 then (g3, Z.max 100 (g4 + rating_change), g5)
    else if grid_size =? 5 then (g3, g4, Z.max 100 (g5 + rating_change))
    else (g3, g4, g5) in
  let deviation :=
    Rmax MIN_DEVIATION (rating_deviation rating * (99 / 100))%R in
  let '(peak, peak_at) :=
    if peak_rating rating <? new_overall_rating
    then (new_overall_rating, Some now)
    else (peak_rating rating, peak_rating_at rating) in
  let '(ws, ls, best) :=
    if won then
      let ws := current_win_streak rating + 1 in
      (ws, 0, Z.max (best_win_streak rating) ws)
    else (0, current_loss_streak rating + 1, best_win_streak rating) in
  mkPlayerRating (pr_player_id rating) new_overall_rating g3 g4 g5
    (games_played rating + 1) deviation (Some now) peak peak_at ws ls best.

(** [update_player_ratings_after_game] once the two rating rows of a
    completed game with a winner have been fetched. *)
Definition update_ratings_after_game (winner_rating loser_rating : PlayerRating)
    (grid_size now : Z) : PlayerRating * PlayerRating :=
  let '(new_winner_rating, new_loser_rating) :=
    calculate_rating_change (overall_rating winner_rating)
      (overall_rating loser_rating) (games_played winner_rating)
      (games_played loser_rating) grid_size in
  (update_rating_record winner_rating new_winner_rating grid_size true now,
   update_rating_record loser_rating new_loser_rating grid_size false now).

(** ** Queue store ([PlayerQueue], [MatchmakingHistory]) *)

Inductive MatchmakingStatus := SEARCHING | MATCHED | CANCELLED | TIMEOUT.

Definition status_eqb (a b : MatchmakingStatus) : bool :=
  match a, b with
  | SEARCHING, SEARCHING | MATCHED, MATCHED
  | CANCELLED, CANCELLED | TIMEOUT, TIMEOUT => true
  | _, _ => false
  end.

(** A [player_queue] row.  [pq_preferences] holds the parsed preference
    blob. *)
Record PlayerQueue := mkPlayerQueue {
  pq_id : nat;
  pq_player_id : nat;
  pq_preferences : Prefs;
  skill_rating : Z;
  queue_type : string;
  status : MatchmakingStatus;
  joined_at : Z;
  search_expanded_at : option Z;
  matched_at : option Z;
  initial_rating_range : Z;
  current_rating_range : Z;
  pq_max_wait_time : Z
}.

Definition is_searching (e : PlayerQueue) : bool := status_eqb (status e) SEARCHING.

Definition with_status (e : PlayerQueue) (s : MatchmakingStatus) (at_ : option Z)
    : PlayerQueue :=
  mkPlayerQueue (pq_id e) (pq_player_id e) (pq_preferences e) (skill_rating e)
    (queue_type e) s (joined_at e) (search_expanded_at e) at_
    (initial_rating_range e) (current_rating_range e) (pq_max_wait_time e).

Definition with_range (e : PlayerQueue) (range : Z) (expanded : Z)
    : PlayerQueue :=
  mkPlayerQueue (pq_id e) (pq_player_id e) (pq_preferences e) (skill_rating e)
    (queue_type e) (status e) (joined_at e) (Some expanded) (matched_at e)
    (initial_rating_range e) range (pq_max_wait_time e).

Record MatchmakingHistory := mkHistory {
  mh_player1_id : nat;
  mh_player2_id : nat;
  mh_game_id : nat;
  rating_difference : Z;
  wait_time_player1 : Z;
  wait_time_player2 : Z;
  preference_match_score : Q
}.

Record GameRow := mkGame {
  g_id : nat;
  g_status : string;
  g_grid_size : Z;
  g_current_turn : option nat
}.

Record GamePlayerRow := mkGamePlayer {
  gp_game_id : nat;
  gp_player_id : nat;
  gp_order : nat
}.

(** The tables the matchmaking service touches, the id sequences of the
    [player_queue] and [games] tables, and the in-memory
    [active_searches] map of the service (player id to the queue entry its
    search task serves). *)
Record Store := mkStore {
  players : list nat;
  player_ratings : list (nat * Z);
  player_queue : list PlayerQueue;
  next_queue_id : nat;
  games : list GameRow;
  game_players : list GamePlayerRow;
  next_game_id : nat;
  matchmaking_history : list MatchmakingHistory;
  active_searches : list (nat * nat)
}.

Definition set_queue (st : Store) (q : list PlayerQueue) : Store :=
  mkStore (players st) (player_ratings st) q (next_queue_id st) (games st)
    (game_players st) (next_game_id st) (matchmaking_history st)
    (active_searches st).

Definition set_active (st : Store) (a : list (nat * nat)) : Store :=
  mkStore (players st) (player_ratings st) (player_queue st) (next_queue_id st)
    (games st) (game_players st) (next_game_id st) (matchmaking_history st) a.

Definition remove_active (a : list (nat * nat)) (pid : nat) : list (nat * nat) :=
  filter (fun kv => negb (Nat.eqb (fst kv) pid)) a.

(** Write back the session object of queue entry [k]. *)
Definition update_entry (q : list PlayerQueue) (k : nat)
    (f : PlayerQueue -> PlayerQueue) : list PlayerQueue :=
  map (fun x => if Nat.eqb (pq_id x) k then f x else x) q.

(** [_get_player_rating]: fetch the rating row, creating it with the
    default rating of 1200 when absent. *)
Definition get_player_rating (st : Store) (pid : nat) : Store * Z :=
  match find (fun r => Nat.eqb (fst r) pid) (player_ratings st) with
  | Some (_, r) => (st, r)
  | None =>
      (mkStore (players st) (player_ratings st ++ [(pid, DEFAULT_RATING)])
         (player_queue st) (next_queue_id st) (games st) (game_players st)
         (next_game_id st) (matchmaking_history st) (active_searches st),
       DEFAULT_RATING)
  end.

(** [join_matchmaking]: an existing Searching row of the player is
    returned as it is; otherwise a new row is inserted and a search task is
    registered for the player. *)
Definition join_matchmaking (st : Store) (pid : nat) (preferences : Prefs)
    (now : Z) : Store * PlayerQueue :=
  match find (fun e => Nat.eqb (pq_player_id e) pid && is_searching e)
             (player_queue st) with
  | Some existing_queue => (st, existing_queue)
  | None =>
      let '(st1, rating) := get_player_rating st pid in
      let e := mkPlayerQueue (next_queue_id st1) pid
                 (prefs_roundtrip preferences) rating
                 (preferred_queue_type preferences) SEARCHING now None None
                 (max_rating_difference preferences)
                 (max_rating_difference preferences)
                 (max_wait_time preferences) in
      (mkStore (players st1) (player_ratings st1) (player_queue st1 ++ [e])
         (S (next_queue_id st1)) (games st1) (game_players st1)
         (next_game_id st1) (matchmaking_history st1)
         ((pid, pq_id e) :: remove_active (active_searches st1) pid),
       e)
  end.

(** Number of Searching rows of a player; the queue invariant is that it
    never exceeds one. *)
Definition count_searching (q : list PlayerQueue) (pid : nat) : nat :=
  List.length (filter (fun e => Nat.eqb (pq_player_id e) pid && is_searching e) q).

Definition searching_unique (q : list PlayerQueue) : bool :=
  forallb (fun e => Nat.leb (count_searching q (pq_player_id e)) 1) q.

(** *** Candidate query of [_find_match] *)

(** The [filter] of the query: another row, Searching, same queue type,
    rating [BETWEEN] the bounds of the current radius. *)
Definition is_candidate (e o : PlayerQueue) : bool :=
  negb (Nat.eqb (pq_id o) (pq_id e)) && is_searching o
  && String.eqb (queue_type o) (queue_type e)
  && (skill_rating e - current_rating_range e <=? skill_rating o)
  && (skill_rating o <=? skill_rating e + current_rating_range e).

(** The [order_by] key. *)
Definition rating_distance (e o : PlayerQueue) : Z :=
  Z.abs (skill_rating o - skill_rating e).

(** SQL semantics of [filter(...).order_by(key).limit(10)]: the rows are
    some arrangement of the matching rows sorted by the key (rows with the
    same key come in an order the database chooses), of which the first
    ten are returned. *)
Definition candidate_query_result (q : list PlayerQueue) (e : PlayerQueue)
    (res : list PlayerQueue) : Prop :=
  exists l, Permutation l (filter (is_candidate e) q)
            /\ Sorted (fun a b => rating_distance e a <= rating_distance e b) l
            /\ res = firstn 10 l.

(** One execution plan of that query: a stable sort of the matching rows
    in table order. *)
Fixpoint insert_by_distance (e o : PlayerQueue) (l : list PlayerQueue)
    : list PlayerQueue :=
  match l with
  | [] => [o]
  | x :: r =>
      if rating_distance e o <? rating_distance e x then o :: x :: r
      else x :: insert_by_distance e o r
  end.

Definition query_candidates (q : list PlayerQueue) (e : PlayerQueue)
    : list PlayerQueue :=
  firstn 10 (fold_left (fun acc o => insert_by_distance e o acc)
                       (filter (is_candidate e) q) []).

(** *** Radius expansion ([_maybe_expand_search_criteria]) *)

Definition seconds (s : Z) : Z := s * 1000000.

Definition maybe_expand_search_criteria (e : PlayerQueue) (now : Z)
    : PlayerQueue :=
  let wait_time := now - joined_at e in
  if (seconds 30 <=? wait_time)
     && (current_rating_range e <? initial_rating_range e * 3) then
    let due := match search_expanded_at e with
               | None => true
               | Some t => seconds 30 <=? now - t
               end in
    if due then
      with_range e (Z.min (current_rating_range e + 50)
                          (initial_rating_range e * 3)) now
    else e
  else e.

(** Successive calls at the given instants; also returns the instants at
    which the range was expanded. *)
Fixpoint run_expansions (e : PlayerQueue) (ts : list Z)
    : PlayerQueue * list Z :=
  match ts with
  | [] => (e, [])
  | t :: ts' =>
      let e' := maybe_expand_search_criteria e t in
      let '(e'', xs) := run_expansions e' ts' in
      (e'', if Z.eqb (current_rating_range e') (current_rating_range e)
            then xs else t :: xs)
  end.

(** Consecutive instants of a list lie at least [d] apart. *)
Fixpoint spaced (d : Z) (l : list Z) : Prop :=
  match l with
  | x :: ((y :: _) as r) => d <= y - x /\ spaced d r
  | _ => True
  end.

Definition opt_cons (o : option Z) (l : list Z) : list Z :=
  match o with Some t => t :: l | None => l end.

(** *** Game service calls used by the claim ([game_service.py]) *)

Definition set_game_tables (st : Store) (gs : list GameRow)
    (gps : list GamePlayerRow) (next : nat) : Store :=
  mkStore (players st) (player_ratings st) (player_queue st) (next_queue_id st)
    gs gps next (matchmaking_history st) (active_searches st).

(** [create_game]: [None] is a raised exception (nothing has been added to
    the session by then); on success the game and its first participant are
    committed. *)
Definition create_game (st : Store) (creator_id : nat) (grid_size : Z)
    : option (Store * nat) :=
  if negb ((3 <=? grid_size) && (grid_size <=? 10)) then None
  else if negb (existsb (Nat.eqb creator_id) (players st)) then None
  else
    let gid := next_game_id st in
    Some (set_game_tables st
            (games st ++ [mkGame gid "waiting" grid_size None])
            (game_players st ++ [mkGamePlayer gid creator_id 1])
            (S gid),
          gid).

(** [join_game].  The lookup of the first participant cannot fail after
    [create_game], which always registers it with order 1; it is read as
    an exception if absent. *)
Definition join_game (st : Store) (game_id player_id : nat) : option Store :=
  match find (fun g => Nat.eqb (g_id g) game_id) (games st) with
  | None => None
  | Some game =>
      if negb (existsb (Nat.eqb player_id) (players st)) then None
      else if negb (String.eqb (g_status game) "waiting") then None
      else if existsb (fun gp => Nat.eqb (gp_game_id gp) game_id
                                 && Nat.eqb (gp_player_id gp) player_id)
                      (game_players st) then None
      else if Nat.leb 2 (List.length (filter (fun gp => Nat.eqb (gp_game_id gp) game_id)
                                        (game_players st))) then None
      else
        let gps := game_players st ++ [mkGamePlayer game_id player_id 2] in
        match find (fun gp => Nat.eqb (gp_game_id gp) game_id
                              && Nat.eqb (gp_order gp) 1) gps with
        | None => None
        | Some first_player =>
            let gs := map (fun g => if Nat.eqb (g_id g) game_id
                                    then mkGame (g_id g) "active" (g_grid_size g)
                                           (Some (gp_player_id first_player))
                                    else g) (games st) in
            Some (set_game_tables st gs gps (next_game_id st))
        end
  end.

(** *** The claim ([_create_match]) *)

Record MatchResult := mkMatchResult {
  mr_success : bool;
  mr_player1_id : nat;
  mr_player2_id : nat;
  mr_game_id : option nat
}.

Definition min_list (l : list Z) (default : Z) : Z :=
  match l with [] => default | x :: r => fold_left Z.min r x end.

Definition mark_matched (q : list PlayerQueue) (k1 k2 : nat) (now : Z)
    : list PlayerQueue :=
  map (fun x => if Nat.eqb (pq_id x) k1 || Nat.eqb (pq_id x) k2
                then with_status x MATCHED (Some now) else x) q.

(** [_create_match player1_queue player2_queue].  It creates the game,
    joins the second player, sets both entries to Matched and records the
    history row, without reading the entries' current status.  A raised
    exception makes the result a failure; the status writes made before
    the raise stay pending in the shared session and reach the database
    with its next commit, which the model applies at once. *)
Definition create_match (st : Store) (player1_queue player2_queue : PlayerQueue)
    (now : Z) : Store * MatchResult :=
  let fail := mkMatchResult false (pq_player_id player1_queue)
                (pq_player_id player2_queue) None in
  let player1_prefs := pq_preferences player1_queue in
  let player2_prefs := pq_preferences player2_queue in
  let common_grid_sizes :=
    filter (fun g => existsb (Z.eqb g) (grid_sizes player2_prefs))
           (grid_sizes player1_prefs) in
  let grid_size := min_list common_grid_sizes 3 in
  match create_game st (pq_player_id player1_queue) grid_size with
  | None => (st, fail)
  | Some (st1, game_id) =>
      match join_game st1 game_id (pq_player_id player2_queue) with
      | None => (st1, fail)
      | Some st2 =>
          let st3 := set_queue st2
                       (mark_matched (player_queue st2) (pq_id player1_queue)
                          (pq_id player2_queue) now) in
          let wait_time_1 := Z.quot (now - joined_at player1_queue) 1000000 in
          let wait_time_2 := Z.quot (now - joined_at player2_queue) 1000000 in
          match calculate_match_compatibility player1_prefs player2_prefs
                  (skill_rating player1_queue) (skill_rating player2_queue) with
          | None => (st3, fail)
          | Some score =>
              let history :=
                mkHistory (pq_player_id player1_queue)
                  (pq_player_id player2_queue) game_id
                  (Z.abs (skill_rating player1_queue
                          - skill_rating player2_queue))
                  wait_time_1 wait_time_2 score in
              (mkStore (players st3) (player_ratings st3) (player_queue st3)
                 (next_queue_id st3) (games st3) (game_players st3)
                 (next_game_id st3) (matchmaking_history st3 ++ [history])
                 (remove_active (remove_active (active_searches st3)
                    (pq_player_id player1_queue)) (pq_player_id player2_queue)),
               mkMatchResult true (pq_player_id player1_queue)
                 (pq_player_id player2_queue) (Some game_id))
          end
      end
  end.

(** *** Opponent selection ([_select_best_opponent]) and [_find_match] *)

(** Scores every candidate ([None]: a scorer exception), keeps those above
    0.3 and returns the first one of highest score, which is what the
    stable descending sort followed by [[0]] returns. *)
Fixpoint select_best (prefs : Prefs) (rating : Z) (cands : list PlayerQueue)
    (best : option (PlayerQueue * Q)) : option (option (PlayerQueue * Q)) :=
  match cands with
  | [] => Some best
  | o :: rest =>
      match calculate_match_compatibility prefs (pq_preferences o) rating
              (skill_rating o) with
      | None => None
      | Some score =>
          let best' :=
            if negb (Qle_bool score (3 # 10)) then
              match best with
              | None => Some (o, score)
              | Some (_, bs) => if negb (Qle_bool score bs) then Some (o, score) else best
              end
            else best in
          select_best prefs rating rest best'
      end
  end.

(** The part of [_find_match] before the claim: the candidate query and the
    choice of an opponent. *)
Definition select_opponent (st : Store) (e : PlayerQueue)
    : option (option PlayerQueue) :=
  match query_candidates (player_queue st) e with
  | [] => Some None
  | cands =>
      match select_best (pq_preferences e) (skill_rating e) cands None with
      | None => None
      | Some best => Some (option_map fst best)
      end
  end.

(** [_find_match]: [None] is an exception escaping it; otherwise the
    chosen opponent (if any) and the outcome. *)
Definition find_match (st : Store) (e : PlayerQueue) (now : Z)
    : option (option PlayerQueue * (Store * MatchResult)) :=
  match select_opponent st e with
  | None => None
  | Some None =>
      Some (None, (st, mkMatchResult false (pq_player_id e) 0 None))
  | Some (Some o) => Some (Some o, create_match st e o now)
  end.

(** *** One iteration of [_continuous_matchmaking_search] *)

(** The loop body for queue entry [k], run without interruption (its only
    suspension point is the final [asyncio.sleep]).  Returns the new store,
    whether the loop goes on, and the pair of entry ids claimed on a
    successful match. *)
Definition search_iteration (st : Store) (k : nat) (now : Z)
    : Store * bool * option (nat * nat) :=
  match find (fun x => Nat.eqb (pq_id x) k) (player_queue st) with
  | None => (st, false, None)
  | Some queue_entry =>
      if negb (is_searching queue_entry) then (st, false, None)
      else
        match find_match st queue_entry now with
        | None => (st, false, None)
        | Some (opp, (st1, match_result)) =>
            if mr_success match_result then
              (st1, false, option_map (fun o => (k, pq_id o)) opp)
            else
              let st2 := set_queue st1
                  (update_entry (player_queue st1) k
                     (fun x => maybe_expand_search_criteria x now)) in
              if seconds (pq_max_wait_time queue_entry)
                   <? now - joined_at queue_entry then
                (set_active
                   (set_queue st2
                      (update_entry (player_queue st2) k
                         (fun x => with_status x TIMEOUT (Some now))))
                   (remove_active (active_searches st2)
                      (pq_player_id queue_entry)),
                 false, None)
              else (st2, true, None)
        end
  end.

(** [leave_matchmaking]: cancels the player's search task and moves the
    player's Searching rows to Cancelled. *)
Definition leave_matchmaking (st : Store) (pid : nat) (now : Z) : Store * bool :=
  let sel := fun x => Nat.eqb (pq_player_id x) pid && is_searching x in
  let updated_rows := List.length (filter sel (player_queue st)) in
  (set_active
     (set_queue st (map (fun x => if sel x then with_status x CANCELLED (Some now)
                                  else x) (player_queue st)))
     (remove_active (active_searches st) pid),
   Nat.ltb 0 updated_rows).

(** Operations on the queue store, each run without interruption. *)
Inductive QueueOp :=
| OpSearch (k : nat) (now : Z)
| OpJoin (pid : nat) (preferences : Prefs) (now : Z)
| OpLeave (pid : nat) (now : Z).

Definition run_queue_op (st : Store) (op : QueueOp)
    : Store * list (nat * nat) :=
  match op with
  | OpSearch k now =>
      let '(st', _, claimed) := search_iteration st k now in
      (st', match claimed with Some c => [c] | None => [] end)
  | OpJoin pid p now => (fst (join_matchmaking st pid p now), [])
  | OpLeave pid now => (fst (leave_matchmaking st pid now), [])
  end.

(** A schedule of operations, with the log of the claimed entry pairs. *)
Fixpoint run_queue_ops (st : Store) (ops : list QueueOp)
    : Store * list (nat * nat) :=
  match ops with
  | [] => (st, [])
  | op :: rest =>
      let '(st1, c1) := run_queue_op st op in
      let '(st2, c2) := run_queue_ops st1 rest in
      (st2, c1 ++ c2)
  end.

(** ** Concrete rows used by the examples below *)

Definition ex_prefs : Prefs := mkPrefs [3] 100 "ranked"%string 120.

(** Entry 1 (player 10, rating 1200) searches; entry 2 (player 20, rating
    1250) joined at t = 5 s, entry 3 (player 30, rating 1150) joined earlier,
    at t = 1 s: both lie 50 points away from entry 1. *)
Definition ex_self : PlayerQueue :=
  mkPlayerQueue 1 10 ex_prefs 1200 "ranked"%string SEARCHING 0 None None 100 100 120.
Definition ex_late : PlayerQueue :=
  mkPlayerQueue 2 20 ex_prefs 1250 "ranked"%string SEARCHING (seconds 5) None None
    100 100 120.
Definition ex_early : PlayerQueue :=
  mkPlayerQueue 3 30 ex_prefs 1150 "ranked"%string SEARCHING (seconds 1) None None
    100 100 120.
Definition ex_queue : list PlayerQueue := [ex_self; ex_late; ex_early].

(** Two compatible Searching entries, 20 points apart. *)
Definition ex_a : PlayerQueue :=
  mkPlayerQueue 1 10 (mkPrefs [3; 4] 200 "ranked"%string 120) 1200 "ranked"%string
    SEARCHING 0 None None 200 200 120.
Definition ex_b : PlayerQueue :=
  mkPlayerQueue 2 20 (mkPrefs [3] 200 "ranked"%string 120) 1220 "ranked"%string
    SEARCHING 0 None None 200 200 120.
Definition ex_store : Store :=
  mkStore [10%nat; 20%nat] [(10%nat, 1200); (20%nat, 1220)] [ex_a; ex_b] 3
    [] [] 1 [] [(10%nat, 1%nat); (20%nat, 2%nat)].

(* ===================================================================== *)
(** ** Integrity checks ([consistency_manager.py]) *)

Module ConsistencyManager.

Record PlayerRow := mkPlayerRow {
  pl_id : nat;
  pl_efficiency : option Q;
  pl_total_wins : Z
}.

Record GameRec := mkGameRec {
  gr_id : nat;
  gr_status : string;
  gr_winner_id : option nat;
  gr_grid_size : Z
}.

Record MoveRow := mkMove {
  mv_id : nat;
  mv_game_id : nat;
  mv_player_id : nat
}.

Record CacheRow := mkCacheRow {
  cache_key : string;
  expires_at : Z
}.

(** The tables the manager reads: players with their denormalised
    counters, games, moves, participants and leaderboard cache rows. *)
Record Db := mkDb {
  players : list PlayerRow;
  games : list GameRec;
  moves : list MoveRow;
  game_players : list GamePlayerRow;
  leaderboard_cache : list CacheRow
}.

(** The session as a state monad over the tables. *)
Definition M (A : Type) : Type := Db -> A * Db.

Definition ret {A : Type} (a : A) : M A := fun db => (a, db).

Definition bind {A B : Type} (m : M A) (f : A -> M B) : M B :=
  fun db => let '(a, db1) := m db in f a db1.

Local Notation "x <- m ;; k" := (bind m (fun x => k))
  (at level 61, m at next level, right associativity).

(** A [SELECT]. *)
Definition query {A : Type} (f : Db -> A) : M A := fun db => (f db, db).

(** A [DELETE] on the cache table, with its commit. *)
Definition delete_cache_where (p : CacheRow -> bool) : M nat :=
  fun db =>
    (List.length (filter p (leaderboard_cache db)),
     mkDb (players db) (games db) (moves db) (game_players db)
       (filter (fun r => negb (p r)) (leaderboard_cache db))).

(** The issue descriptors (the dicts of the source). *)
Record OrphanedMove := mkOrphaned {
  om_move_id : nat;
  om_game_id : nat;
  om_player_id : nat
}.

Record InvalidGame := mkInvalidGame {
  ig_game_id : nat;
  ig_issue : string;
  ig_move_count : nat
}.

Record EfficiencyMismatch := mkMismatch {
  em_player_id : nat;
  em_stored_efficiency : Q;
  em_actual_efficiency : Q;
  em_stored_wins : Z;
  em_actual_wins : Z
}.

Record MissingPlayers := mkMissing {
  mp_game_id : nat;
  mp_players_with_moves : nat;
  mp_registered_players : nat
}.

Record Issues := mkIssues {
  orphaned_moves : list OrphanedMove;
  invalid_game_states : list InvalidGame;
  efficiency_mismatches : list EfficiencyMismatch;
  missing_game_players : list MissingPlayers
}.

Record IntegrityReport := mkReport {
  timestamp : Z;
  total_issues : nat;
  issues : Issues
}.

(** [_check_orphaned_moves]: moves whose game or player row is missing
    (the two outer joins). *)
Definition check_orphaned_moves : M (list OrphanedMove) :=
  orphaned <- query (fun db =>
    filter (fun m => negb (existsb (fun g => Nat.eqb (gr_id g) (mv_game_id m))
                                   (games db))
                     || negb (existsb (fun p => Nat.eqb (pl_id p) (mv_player_id m))
                                      (players db)))
           (moves db)) ;;
  ret (map (fun m => mkOrphaned (mv_id m) (mv_game_id m) (mv_player_id m))
           orphaned).

(** [SELECT count(moves.id) WHERE moves.game_id = gid]. *)
Definition count_moves (gid : nat) (db : Db) : nat :=
  List.length (filter (fun m => Nat.eqb (mv_game_id m) gid) (moves db)).

Fixpoint check_games (invalid_games : list (nat * string)) : M (list InvalidGame) :=
  match invalid_games with
  | [] => ret []
  | (game_id, _) :: rest =>
      move_count <- query (count_moves game_id) ;;
      issues <- check_games rest ;;
      ret (if Nat.ltb move_count 9
           then mkInvalidGame game_id "completed_game_no_winner" move_count :: issues
           else issues)
  end.

(** [_check_invalid_game_states]: completed games without a winner whose
    move count is below the hardcoded 9. *)
Definition check_invalid_game_states : M (list InvalidGame) :=
  invalid_games <- query (fun db =>
    map (fun g => (gr_id g, gr_status g))
        (filter (fun g => String.eqb (gr_status g) "completed"
                          && match gr_winner_id g with None => true | Some _ => false end)
                (games db))) ;;
  check_games invalid_games.

Record ActualStats := mkActualStats {
  wins : Z;
  total_moves : nat;
  efficiency : Q
}.

(** The rows of the grouped join: the games won by [pid] with the number of
    their moves made by [pid] (groups without a move do not exist). *)
Definition wins_rows (pid : nat) (db : Db) : list (nat * nat) :=
  flat_map (fun g =>
      match gr_winner_id g with
      | Some w =>
          if Nat.eqb w pid then
            let c := List.length (filter (fun m => Nat.eqb (mv_game_id m) (gr_id g)
                                                   && Nat.eqb (mv_player_id m) pid)
                                         (moves db)) in
            if Nat.eqb c 0 then [] else [(gr_id g, c)]
          else []
      | None => []
      end) (games db).

(** [_calculate_actual_efficiency]. *)
Definition calculate_actual_efficiency (pid : nat) : M (option ActualStats) :=
  wins_data <- query (wins_rows pid) ;;
  match wins_data with
  | [] => ret None
  | _ =>
      let total_wins := Z.of_nat (List.length wins_data) in
      let total_moves := fold_right Nat.add 0%nat (map snd wins_data) in
      ret (Some (mkActualStats total_wins total_moves
                   (inject_Z (Z.of_nat total_moves) / inject_Z total_wins)))
  end.

Fixpoint check_players (rows : list (nat * Q * Z)) : M (list EfficiencyMismatch) :=
  match rows with
  | [] => ret []
  | (player_id, stored_efficiency, stored_wins) :: rest =>
      actual_stats <- calculate_actual_efficiency player_id ;;
      mismatches <- check_players rest ;;
      ret (match actual_stats with
           | None => mismatches
           | Some a =>
               if negb (Qle_bool (Qabs (stored_efficiency - efficiency a)) (1 # 10))
                  || negb (Z.eqb stored_wins (wins a))
               then mkMismatch player_id stored_efficiency (efficiency a)
                      stored_wins (wins a) :: mismatches
               else mismatches
           end)
  end.

(** [_check_efficiency_mismatches sample_size]: the first [sample_size]
    players with an efficiency and at least one win. *)
Definition check_efficiency_mismatches (sample_size : nat)
    : M (list EfficiencyMismatch) :=
  players_with_efficiency <- query (fun db =>
    firstn sample_size
      (flat_map (fun p => match pl_efficiency p with
                          | Some e => if 0 <? pl_total_wins p
                                      then [(pl_id p, e, pl_total_wins p)] else []
                          | None => []
                          end) (players db))) ;;
  check_players players_with_efficiency.

(** The [GROUP BY moves.game_id] groups, one per game id (the database
    returns them in an unspecified order; the model takes [nodup]'s). *)
Definition move_game_ids (db : Db) : list nat :=
  nodup Nat.eq_dec (map mv_game_id (moves db)).

Definition unique_players (gid : nat) (db : Db) : nat :=
  List.length (nodup Nat.eq_dec
    (map mv_player_id (filter (fun m => Nat.eqb (mv_game_id m) gid) (moves db)))).

(** [coalesce(registered_players, 0)]. *)
Definition registered_players (gid : nat) (db : Db) : nat :=
  List.length (filter (fun gp => Nat.eqb (gp_game_id gp) gid) (game_players db)).

(** [_check_missing_game_players]. *)
Definition check_missing_game_players : M (list MissingPlayers) :=
  mismatches <- query (fun db =>
    map (fun gid => (gid, unique_players gid db, registered_players gid db))
        (filter (fun gid => negb (Nat.eqb (unique_players gid db)
                                          (registered_players gid db)))
                (move_game_ids db))) ;;
  ret (map (fun '(gid, u, r) => mkMissing gid u r) mismatches).

(** [validate_data_integrity], at instant [now]. *)
Definition validate_data_integrity (now : Z) : M IntegrityReport :=
  o <- check_orphaned_moves ;;
  i <- check_invalid_game_states ;;
  e <- check_efficiency_mismatches 100 ;;
  m <- check_missing_game_players ;;
  let total := (List.length o + List.length i + List.length e + List.length m)%nat in
  ret (mkReport now total (mkIssues o i e m)).

(** [cleanup_expired_cache_entries]: the one job of the manager that
    deletes rows. *)
Definition cleanup_expired_cache_entries (now days_old : Z) : M nat :=
  let cutoff_date := now - days_old * 86400 * 1000000 in
  delete_cache_where (fun r => expires_at r <? cutoff_date).

(** A session program that leaves the tables as they are. *)
Definition read_only {A : Type} (m : M A) : Prop := forall db, snd (m db) = db.

(** The reading of the claim's words: a completed game without a winner is
    invalid unless its board is full, i.e. its move count equals the
    number of cells, [grid_size * grid_size] ([Game.get_total_cells]). *)
Definition invalid_game_ids_by_board (db : Db) : list nat :=
  map gr_id
    (filter (fun g => String.eqb (gr_status g) "completed"
                      && match gr_winner_id g with None => true | Some _ => false end
                      && negb (Z.eqb (Z.of_nat (count_moves (gr_id g) db))
                                     (gr_grid_size g * gr_grid_size g)))
            (games db)).

(** A completed 4x4 game (id 1) without a winner, with 10 moves: 6 of its
    16 cells are empty. *)
Definition ex_moves : list MoveRow :=
  map (fun k => mkMove k 1 (if Nat.even k then 2 else 1)) (seq 1 10).

Definition ex_db : Db :=
  mkDb [mkPlayerRow 1 None 0; mkPlayerRow 2 None 0]
    [mkGameRec 1 "completed" None 4] ex_moves
    [mkGamePlayer 1 1 1; mkGamePlayer 1 2 2] [].

End ConsistencyManager.

(* ===================================================================== *)
(** ** Further [SkillCalculator] methods *)

(** [get_rating_for_grid_size]. *)
Definition get_rating_for_grid_size (rating : PlayerRating) (grid_size : Z) : Z :=
  if grid_size =? 3 then grid_3x3_rating rating
  else if grid_size =? 4 then grid_4x4_rating rating
  else if grid_size =? 5 then grid_5x5_rating rating
  else overall_rating rating.

(** [calculate_match_quality]. *)
Definition calculate_match_quality (rating1 rating2 : Z) (deviation1 deviation2 : R)
    : R :=
  let rating_diff := Z.abs (rating1 - rating2) in
  let rating_quality := Rmax 0 (1 - IZR rating_diff / 400)%R in
  let avg_deviation := ((deviation1 + deviation2) / 2)%R in
  let deviation_quality := Rmax 0 (1 - avg_deviation / 350)%R in
  let overall_quality := (rating_quality * (7 / 10) + deviation_quality * (3 / 10))%R in
  Rmin 1 overall_quality.

Record Prediction := mkPrediction {
  player1_win_probability : R;
  player2_win_probability : R;
  draw_probability : R;
  confidence : R
}.

(** [predict_match_outcome]. *)
Definition predict_match_outcome (rating1 rating2 : Z) : Prediction :=
  let player1_win_prob := expected_score rating1 rating2 in
  let player2_win_prob := (1 - player1_win_prob)%R in
  let rating_diff := Z.abs (rating1 - rating2) in
  let draw_prob := Rmax (5 / 100) (3 / 10 * exp (- IZR rating_diff / 200))%R in
  let total := (player1_win_prob + player2_win_prob + draw_prob)%R in
  mkPrediction (player1_win_prob / total)%R (player2_win_prob / total)%R
    (draw_prob / total)%R (Rmin 1 (IZR rating_diff / 400)).

(* ===================================================================== *)
(** ** [get_queue_status] *)

Record QueueTypeStats := mkQueueTypeStats {
  qs_queue_type : string;
  qs_count : nat;
  qs_avg_wait_time : Q
}.

Record QueueStatus := mkQueueStatus {
  total_searching : nat;
  queue_breakdown : list QueueTypeStats;
  qstatus_active_searches : nat
}.

(** The grouped query: for each queue type of the Searching rows (one
    group per type, in an order the database chooses; the model takes
    [nodup]'s), the number of rows and their average wait in seconds. *)
Definition queue_stats (q : list PlayerQueue) (now : Z) : list QueueTypeStats :=
  let rows := filter is_searching q in
  map (fun t =>
         let grp := filter (fun e => String.eqb (queue_type e) t) rows in
         mkQueueTypeStats t (List.length grp)
           (inject_Z (fold_right Z.add 0%Z (map (fun e => (now - joined_at e)%Z) grp))
            / (inject_Z 1000000 * inject_Z (Z.of_nat (List.length grp))))%Q)
      (nodup string_dec (map queue_type rows)).

Definition get_queue_status (st : Store) (now : Z) : QueueStatus :=
  let stats := queue_stats (player_queue st) now in
  mkQueueStatus (fold_right Nat.add 0%nat (map qs_count stats)) stats
    (List.length (active_searches st)).

(* ===================================================================== *)
(** ** Request validation ([MatchmakingRequest], [schemas/matchmaking.py]) *)

Record MatchmakingRequest := mkRequest {
  req_player_id : nat;
  req_grid_sizes : list Z;
  req_max_rating_difference : Z;
  req_queue_type : string;
  req_max_wait_time : Z
}.

(** [validate_grid_sizes]: [list(set(v))] of a non-empty list of sizes in
    [3,10].  The order of a set's elements is CPython's; the model keeps
    the one [nodup] gives. *)
Definition validate_grid_sizes (v : list Z) : option (list Z) :=
  match v with
  | [] => None
  | _ => if forallb (fun size => (3 <=? size) && (size <=? 10)) v
         then Some (nodup Z.eq_dec v) else None
  end.

Definition validate_queue_type (v : string) : option string :=
  if existsb (String.eqb v) ["ranked"; "casual"; "tournament"]%string
  then Some v else None.

(** The whole model validation, with the [Field] bounds [ge]/[le]. *)
Definition validate_request (r : MatchmakingRequest) : option MatchmakingRequest :=
  match validate_grid_sizes (req_grid_sizes r), validate_queue_type (req_queue_type r) with
  | Some gs, Some qt =>
      if (50 <=? req_max_rating_difference r) && (req_max_rating_difference r <=? 1000)
         && (30 <=? req_max_wait_time r) && (req_max_wait_time r <=? 600)
      then Some (mkRequest (req_player_id r) gs (req_max_rating_difference r) qt
                   (req_max_wait_time r))
      else None
  | _, _ => None
  end.

(** The preferences the [/join] endpoint builds from a request. *)
Definition request_preferences (r : MatchmakingRequest) : Prefs :=
  mkPrefs (req_grid_sizes r) (req_max_rating_difference r) (req_queue_type r)
    (req_max_wait_time r).

(* ===================================================================== *)
(** ** Winner statistics ([player_stats_manager.py]) *)

Module PlayerStatsManager.





End PlayerStatsManager.

(* ===================================================================== *)
(** ** Auxiliary views and examples for the statements *)

(** The streak invariant of a rating row: the counters are non-negative,
    at most one of the current streaks is running and the best win streak
    is at least the current one. *)
Definition streaks_ok (r : PlayerRating) : Prop :=
  (0 <= current_win_streak r /\ 0 <= current_loss_streak r
   /\ (current_win_streak r = 0 \/ current_loss_streak r = 0)
   /\ current_win_streak r <= best_win_streak r)%Z.

(** The score [_select_best_opponent] computes for a candidate. *)
Definition compat_of (prefs : Prefs) (rating : Z) (o : PlayerQueue) : option Q :=
  calculate_match_compatibility prefs (pq_preferences o) rating (skill_rating o).

(** The rating [_get_player_rating] returns for a player. *)
Definition rating_of (st : Store) (pid : nat) : Z :=
  match find (fun r => Nat.eqb (fst r) pid) (player_ratings st) with
  | Some (_, r) => r
  | None => DEFAULT_RATING
  end.

(** The grid size [_create_match] asks for. *)
Definition common_grid_size (e1 e2 : PlayerQueue) : Z :=
  min_list (filter (fun g => existsb (Z.eqb g) (grid_sizes (pq_preferences e2)))
                   (grid_sizes (pq_preferences e1))) 3.

(** Entries of two players who accept disjoint grid sizes, 4x4 and 5x5. *)
Definition ex_c : PlayerQueue :=
  mkPlayerQueue 1 10 (mkPrefs [4] 200 "ranked"%string 120) 1200 "ranked"%string
    SEARCHING 0 None None 200 200 120.

Definition ex_d : PlayerQueue :=
  mkPlayerQueue 2 20 (mkPrefs [5] 200 "ranked"%string 120) 1220 "ranked"%string
    SEARCHING 0 None None 200 200 120.

Definition ex_store_disjoint : Store := set_queue ex_store [ex_c; ex_d].

(** A queue holding entry 1 alone. *)
Definition ex_lonely : Store := set_queue ex_store [ex_a].

(** The sum of a list of counts. *)
Definition sumn (l : list nat) : nat := fold_right Nat.add 0%nat l.

Module ConsistencyViews.
Import ConsistencyManager.

(** The moves [pid] made in game [g], and whether [g] is a game [pid] won
    with at least one of them. *)
Definition own_moves (pid : nat) (db : Db) (g : GameRec) : nat :=
  List.length (filter (fun m => Nat.eqb (mv_game_id m) (gr_id g)
                                && Nat.eqb (mv_player_id m) pid) (moves db)).

Definition won_with_moves (pid : nat) (db : Db) (g : GameRec) : bool :=
  match gr_winner_id g with
  | Some w => Nat.eqb w pid && negb (Nat.eqb (own_moves pid db g) 0)
  | None => false
  end.

End ConsistencyViews.

Module StatsExamples.
Import PlayerStatsManager.



End StatsExamples.

(* ===================================================================== *)
(** * Theorems *)

(** ** Compatibility scorer *)

Lemma grids_intersect_sym (a b : list Z) :
  grids_intersect a b = grids_intersect b a.
Proof.
  unfold grids_intersect.
  apply eq_true_iff_eq; rewrite !existsb_exists; split;
    intros [x [Hx Hb]]; apply existsb_exists in Hb as [y [Hy Hxy]];
    apply Z.eqb_eq in Hxy; subst y;
    exists x; split; auto; apply existsb_exists; exists x;
    split; auto; apply Z.eqb_refl.
Qed.

Lemma abs_diff_sym (a b : Z) : Z.abs (a - b) = Z.abs (b - a).
Proof. replace (b - a) with (- (a - b)) by lia. now rewrite Z.abs_opp. Qed.

Lemma ratio_bounds (d m : Z) :
  0 <= d -> d <= m -> 0 < m ->
  (0 <= inject_Z d / inject_Z m <= 1)%Q.
Proof.
  intros Hd Hdm Hm.
  assert (Hm' : (0 < inject_Z m)%Q) by (change 0%Q with (inject_Z 0); now rewrite <- Zlt_Qlt).
  split.
  - apply Qle_shift_div_l; auto.
    setoid_replace (0 * inject_Z m)%Q with (inject_Z 0) by ring.
    now rewrite <- Zle_Qle.
  - apply Qle_shift_div_r; auto.
    setoid_replace (1 * inject_Z m)%Q with (inject_Z m) by ring.
    now rewrite <- Zle_Qle.
Qed.

(** The score computation succeeds whenever the smaller of the two
    rating tolerances is positive, and then lies in [[0,1]]. *)
Lemma compatibility_in_range (p1 p2 : Prefs) (r1 r2 : Z) :
  0 < Z.min (max_rating_difference p1) (max_rating_difference p2) ->
  exists s, calculate_match_compatibility p1 p2 r1 r2 = Some s
            /\ (0 <= s <= 1)%Q.
Proof.
  intros Hm.
  unfold calculate_match_compatibility.
  set (m := Z.min (max_rating_difference p1) (max_rating_difference p2)) in *.
  set (d := Z.abs (r1 - r2)).
  assert (Hd : 0 <= d) by apply Z.abs_nonneg.
  destruct (d <=? m) eqn:Hdm.
  - apply Z.leb_le in Hdm.
    destruct (m =? 0) eqn:Hm0; [apply Z.eqb_eq in Hm0; lia|].
    destruct (ratio_bounds d m Hd Hdm Hm) as [H0 H1].
    set (x := (inject_Z d / inject_Z m)%Q) in *.
    clearbody x.
    destruct (grids_intersect _ _), (String.eqb _ _), (_ <=? 60);
      eexists; split; try reflexivity; clear -H0 H1; split; Lqa.lra.
  - destruct (grids_intersect _ _), (String.eqb _ _), (_ <=? 60);
      eexists; split; try reflexivity; clear; split; Lqa.lra.
Qed.

Lemma compatibility_sym (p1 p2 : Prefs) (r1 r2 : Z) :
  calculate_match_compatibility p1 p2 r1 r2
  = calculate_match_compatibility p2 p1 r2 r1.
Proof.
  unfold calculate_match_compatibility.
  rewrite (grids_intersect_sym (grid_sizes p1)), (abs_diff_sym r1),
    (Z.min_comm (max_rating_difference p1)),
    (String.eqb_sym (preferred_queue_type p1)),
    (abs_diff_sym (max_wait_time p1)).
  reflexivity.
Qed.

(** Claim C3: for two preference sets accepted by the join schema and any
    integer ratings, the compatibility score lies in [[0,1]] and is
    symmetric under swapping the two players. *)
Theorem compatibility_range_sym (p1 p2 : Prefs) (r1 r2 : Z) :
  valid_prefs p1 = true -> valid_prefs p2 = true ->
  (exists s, calculate_match_compatibility p1 p2 r1 r2 = Some s
             /\ (0 <= s <= 1)%Q)
  /\ calculate_match_compatibility p1 p2 r1 r2
     = calculate_match_compatibility p2 p1 r2 r1.
Proof.
  intros V1 V2; split; [|apply compatibility_sym].
  apply compatibility_in_range.
  unfold valid_prefs in V1, V2.
  repeat rewrite andb_true_iff in V1, V2.
  destruct V1 as [[[[[[_ _] A1] _] _] _] _].
  destruct V2 as [[[[[[_ _] A2] _] _] _] _].
  apply Z.leb_le in A1, A2. lia.
Qed.

Lemma compatibility_range_sym_witness :
  valid_prefs (mkPrefs [3; 4] 200 "ranked"%string 120) = true
  /\ valid_prefs (mkPrefs [3] 200 "ranked"%string 120) = true
  /\ calculate_match_compatibility (mkPrefs [3; 4] 200 "ranked"%string 120)
       (mkPrefs [3] 200 "ranked"%string 120) 1200 1220
     = calculate_match_compatibility (mkPrefs [3] 200 "ranked"%string 120)
         (mkPrefs [3; 4] 200 "ranked"%string 120) 1220 1200.
Proof.
  split; [reflexivity|]. split; [reflexivity|].
  apply (compatibility_range_sym (mkPrefs [3; 4] 200 "ranked"%string 120)
           (mkPrefs [3] 200 "ranked"%string 120) 1200 1220); reflexivity.
Defined.

(** Claim C10: when the smaller max-rating-difference of the two preference
    sets is positive, the score computation never raises: the division in
    the rating term is only reached with a non-zero divisor. *)
Theorem compatibility_total (p1 p2 : Prefs) (r1 r2 : Z) :
  0 < Z.min (max_rating_difference p1) (max_rating_difference p2) ->
  calculate_match_compatibility p1 p2 r1 r2 <> None.
Proof.
  intros Hm. destruct (compatibility_in_range p1 p2 r1 r2 Hm) as [s [-> _]].
  discriminate.
Qed.

Lemma compatibility_total_witness :
  0 < Z.min (max_rating_difference (mkPrefs [3] 50 "casual"%string 30))
            (max_rating_difference (mkPrefs [5] 70 "ranked"%string 600))
  /\ calculate_match_compatibility (mkPrefs [3] 50 "casual"%string 30)
       (mkPrefs [5] 70 "ranked"%string 600) 0 1000 <> None.
Proof.
  split; [reflexivity|].
  apply (compatibility_total (mkPrefs [3] 50 "casual"%string 30)
           (mkPrefs [5] 70 "ranked"%string 600) 0 1000); reflexivity.
Defined.

(** ** Skill calculator *)

Lemma clamp_change_bound (c : R) : (Rabs (clamp_change c) <= 50)%R.
Proof.
  unfold clamp_change, MAX_RATING_CHANGE.
  apply Rabs_le; split; [apply Rmax_l|].
  apply Rmax_lub; [lra | apply Rmin_l].
Qed.

Lemma py_int_close (x : R) : (Rabs (IZR (py_int x) - x) < 1)%R.
Proof.
  unfold py_int. destruct (Rle_dec 0 x).
  - destruct (base_Int_part x). apply Rabs_def1; lra.
  - destruct (base_Int_part (- x)). rewrite opp_IZR. apply Rabs_def1; lra.
Qed.

Lemma floored_close (r : Z) (c : R) :
  (100 <= r)%Z -> (Rabs c <= 50)%R ->
  (Z.abs (Z.max 100 (py_int (IZR r + c)) - r) <= 50)%Z.
Proof.
  intros Hr Hc.
  pose proof (py_int_close (IZR r + c)) as Hk.
  set (k := py_int (IZR r + c)) in *.
  apply Rabs_def2 in Hk as [Hk1 Hk2].
  pose proof (Rle_abs c) as Hc1. pose proof (Rle_abs (- c)) as Hc2.
  rewrite Rabs_Ropp in Hc2.
  assert (Hu : (k < r + 51)%Z) by (apply lt_IZR; rewrite plus_IZR; lra).
  assert (Hl : (r - 51 < k)%Z) by (apply lt_IZR; rewrite minus_IZR; lra).
  lia.
Qed.

Lemma update_rating_record_fields (r : PlayerRating) (n g : Z) (won : bool)
    (now : Z) :
  overall_rating (update_rating_record r n g won now) = n
  /\ rating_deviation (update_rating_record r n g won now)
     = Rmax MIN_DEVIATION (rating_deviation r * (99 / 100))%R.
Proof.
  unfold update_rating_record.
  destruct (g =? 3), (g =? 4), (g =? 5), (peak_rating r <? n), won;
    split; reflexivity.
Qed.

(** Claim C2: for any ratings, game counts and grid size, the two clamped
    rating changes have magnitude at most 50, both new ratings are at least
    100 and both new deviations at least 50.  For ratings that are already
    at or above the floor of 100 (every stored rating), the realised change
    [new - old] is also at most 50 in magnitude. *)
Theorem rating_update_bounds (w l : PlayerRating) (grid_size now : Z) :
  let '(winner_change, loser_change) :=
    rating_changes (overall_rating w) (overall_rating l) (games_played w)
      (games_played l) grid_size in
  let '(w', l') := update_ratings_after_game w l grid_size now in
  (Rabs winner_change <= 50)%R /\ (Rabs loser_change <= 50)%R
  /\ (100 <= overall_rating w')%Z /\ (100 <= overall_rating l')%Z
  /\ (50 <= rating_deviation w')%R /\ (50 <= rating_deviation l')%R
  /\ ((100 <= overall_rating w)%Z ->
      (Z.abs (overall_rating w' - overall_rating w) <= 50)%Z)
  /\ ((100 <= overall_rating l)%Z ->
      (Z.abs (overall_rating l' - overall_rating l) <= 50)%Z).
Proof.
  unfold update_ratings_after_game, calculate_rating_change.
  destruct (rating_changes _ _ _ _ _) as [wc lc] eqn:E.
  assert (Hw : (Rabs wc <= 50)%R /\ (Rabs lc <= 50)%R).
  { unfold rating_changes in E. injection E as <- <-.
    split; apply clamp_change_bound. }
  destruct Hw as [Hw Hl].
  destruct (update_rating_record_fields w
              (Z.max 100 (py_int (IZR (overall_rating w) + wc))) grid_size
              true now) as [-> ->].
  destruct (update_rating_record_fields l
              (Z.max 100 (py_int (IZR (overall_rating l) + lc))) grid_size
              false now) as [-> ->].
  repeat split; auto; try lia.
  - apply Rmax_l.
  - apply Rmax_l.
  - intros H. now apply floored_close.
  - intros H. now apply floored_close.
Qed.

Lemma fourth_root_10_bounds :
  (17782 / 10000 < Rpower 10 (1 / 4) < 17783 / 10000)%R.
Proof.
  set (x := Rpower 10 (1 / 4)).
  assert (Hpos : (0 < x)%R) by (unfold x, Rpower; apply exp_pos).
  assert (H4 : (x ^ 4 = 10)%R).
  { rewrite <- (Rpower_pow 4 x Hpos). unfold x. rewrite Rpower_mult.
    replace (1 / 4 * INR 4)%R with 1%R by (simpl; lra).
    apply Rpower_1; lra. }
  split; apply Rnot_le_lt; intro H.
  - pose proof (pow_incr x (17782 / 10000) 4 (conj (Rlt_le _ _ Hpos) H))
      as P.
    rewrite H4 in P. simpl in P. lra.
  - assert (Hc : (0 <= 17783 / 10000)%R) by lra.
    pose proof (pow_incr (17783 / 10000) x 4 (conj Hc H)) as P.
    rewrite H4 in P. simpl in P. lra.
Qed.

Lemma clamp_change_id (c : R) :
  (- 50 <= c <= 50)%R -> clamp_change c = c.
Proof.
  intros [H1 H2]. unfold clamp_change, MAX_RATING_CHANGE.
  rewrite Rmin_right by lra. rewrite Rmax_right by lra. reflexivity.
Qed.

Lemma py_int_eq (x : R) (k : Z) :
  (0 <= x)%R -> (IZR k <= x < IZR k + 1)%R -> py_int x = k.
Proof.
  intros H0 [H1 H2]. unfold py_int.
  destruct (Rle_dec 0 x); [|lra].
  destruct (base_Int_part x) as [B1 B2].
  assert (Hu : (Int_part x < k + 1)%Z) by (apply lt_IZR; rewrite plus_IZR; lra).
  assert (Hl : (k - 1 < Int_part x)%Z) by (apply lt_IZR; rewrite minus_IZR; lra).
  lia.
Qed.

(** The rating update of the worked example (winner 1200 with 15 games,
    loser 1300 with 15 games, 3x3 board), evaluated. *)
Lemma example_rating_facts :
  (3599 / 10000 < expected_score 1200 1300 < 36 / 100)%R
  /\ get_k_factor 15 = 40
  /\ get_grid_size_modifier 3 = (8 / 10)%R
  /\ (let '(wc, lc) := rating_changes 1200 1300 15 15 3 in
      2047 / 100 < wc < 2049 / 100 /\ lc = (- wc)%R)%R
  /\ calculate_rating_change 1200 1300 15 15 3 = (1220, 1279).
Proof.
  destruct fourth_root_10_bounds as [X1 X2].
  set (x := Rpower 10 (1 / 4)) in *.
  assert (HE : expected_score 1200 1300 = (1 / (1 + x))%R).
  { unfold expected_score, x. do 3 f_equal.
    rewrite minus_IZR. lra. }
  set (y := (1 / (1 + x))%R) in HE.
  assert (Hy : (y * (1 + x) = 1)%R) by (unfold y; field; lra).
  assert (Y1 : (3599 / 10000 < y)%R) by nra.
  assert (Y2 : (y < 36 / 100)%R) by nra.
  assert (HC : rating_changes 1200 1300 15 15 3
               = (32 * (1 - y), - (32 * (1 - y)))%R).
  { unfold rating_changes. cbv zeta.
    change (get_k_factor 15) with 40%Z.
    change (get_grid_size_modifier 3) with (8 / 10)%R.
    rewrite HE.
    rewrite !clamp_change_id by lra.
    f_equal; lra. }
  split; [rewrite HE; lra|].
  split; [reflexivity|]. split; [reflexivity|].
  split; [rewrite HC; lra|].
  unfold calculate_rating_change. rewrite HC.
  rewrite (py_int_eq _ 1220) by lra.
  rewrite (py_int_eq _ 1279) by lra.
  reflexivity.
Qed.

(** Claim C5, as stated, fails: on winner 1200 (15 games), loser 1300
    (15 games), board size 3, the winner's expected score exceeds 0.35
    (not about 0.24) and the new ratings are 1220 and 1279 (not about 1224
    and 1276). *)
Lemma rating_example_counterexample :
  (35 / 100 < expected_score 1200 1300)%R
  /\ calculate_rating_change 1200 1300 15 15 3 = (1220, 1279).
Proof.
  destruct example_rating_facts as [[E1 _] [_ [_ [_ H]]]].
  split; [lra | exact H].
Qed.

(** Claim C5, amended: for that example the winner's expected score is
    about 0.36 (between 0.3599 and 0.36), both K-factors are 40, the
    complexity modifier is 0.8, the winner's clamped change is about +20.48
    (between 20.47 and 20.49), the loser's change is exactly its negative,
    and the new ratings are 1220 and 1279. *)
Theorem rating_example_values :
  (3599 / 10000 < expected_score 1200 1300 < 36 / 100)%R
  /\ get_k_factor 15 = 40
  /\ get_grid_size_modifier 3 = (8 / 10)%R
  /\ (let '(wc, lc) := rating_changes 1200 1300 15 15 3 in
      2047 / 100 < wc < 2049 / 100 /\ lc = (- wc)%R)%R
  /\ calculate_rating_change 1200 1300 15 15 3 = (1220, 1279).
Proof. exact example_rating_facts. Qed.

(** ** Queue join *)

Lemma count_searching_app (q1 q2 : list PlayerQueue) (pid : nat) :
  count_searching (q1 ++ q2) pid = (count_searching q1 pid + count_searching q2 pid)%nat.
Proof. unfold count_searching. now rewrite filter_app, length_app. Qed.

Lemma searching_unique_spec (q : list PlayerQueue) :
  searching_unique q = true <->
  (forall e, In e q -> (count_searching q (pq_player_id e) <= 1)%nat).
Proof.
  unfold searching_unique. rewrite forallb_forall.
  split; intros H e He; specialize (H e He); [apply Nat.leb_le | apply Nat.leb_le]; auto.
Qed.

Lemma filter_short_eq {A} (f : A -> bool) (l : list A) (a b : A) :
  (List.length (filter f l) <= 1)%nat -> In a (filter f l) -> In b (filter f l) -> a = b.
Proof.
  destruct (filter f l) as [|x [|y r]]; simpl; intros Hl Ha Hb.
  - contradiction.
  - destruct Ha as [<-|[]]; destruct Hb as [<-|[]]; reflexivity.
  - lia.
Qed.

Lemma get_player_rating_queue (st : Store) (pid : nat) :
  player_queue (fst (get_player_rating st pid)) = player_queue st
  /\ next_queue_id (fst (get_player_rating st pid)) = next_queue_id st.
Proof. unfold get_player_rating. destruct (find _ _) as [[? ?]|]; split; reflexivity. Qed.

(** Claim C4: under the queue invariant (at most one Searching row per
    player), joining with a player that already has a Searching row returns
    that row and leaves the store untouched (no new row, no new search
    task); and every join preserves the invariant. *)
Theorem join_matchmaking_idempotent (st : Store) (pid : nat) (prefs : Prefs)
    (now : Z) :
  searching_unique (player_queue st) = true ->
  (forall e, In e (player_queue st) -> pq_player_id e = pid ->
             status e = SEARCHING ->
             join_matchmaking st pid prefs now = (st, e))
  /\ searching_unique (player_queue (fst (join_matchmaking st pid prefs now)))
     = true.
Proof.
  intros U. pose proof (proj1 (searching_unique_spec _) U) as U'.
  split.
  - intros e He Hp Hs. unfold join_matchmaking.
    destruct (find _ _) as [e'|] eqn:F.
    + apply find_some in F as [He' Fe'].
      pose proof Fe' as Fe''.
      apply andb_true_iff in Fe' as [Pe' _]. apply Nat.eqb_eq in Pe'.
      f_equal. specialize (U' e He). rewrite Hp in U'.
      apply (filter_short_eq _ _ e' e U').
      * apply filter_In. split; [exact He' | exact Fe''].
      * apply filter_In. split; auto.
        unfold is_searching. rewrite Hp, Hs, Nat.eqb_refl. reflexivity.
    + apply (find_none _ _ F) in He.
      unfold is_searching in He. rewrite Hp, Hs, Nat.eqb_refl in He.
      discriminate.
  - unfold join_matchmaking.
    destruct (find _ _) as [e'|] eqn:F; [exact U|].
    destruct (get_player_rating st pid) as [st1 r] eqn:G.
    destruct (get_player_rating_queue st pid) as [Q1 _].
    rewrite G in Q1. simpl in Q1 |- *. rewrite Q1.
    apply searching_unique_spec. intros x Hx.
    rewrite count_searching_app.
    assert (Z0 : count_searching (player_queue st) pid = 0%nat).
    { unfold count_searching.
      destruct (filter _ _) as [|y r'] eqn:Fl; [reflexivity|].
      assert (Hy : In y (filter (fun e => (pq_player_id e =? pid)%nat && is_searching e)
                        (player_queue st))) by (rewrite Fl; left; reflexivity).
      apply filter_In in Hy as [Hy Fy]. rewrite (find_none _ _ F y Hy) in Fy.
      discriminate. }
    apply in_app_or in Hx as [Hx|[<-|[]]].
    + specialize (U' x Hx).
      unfold count_searching at 2; simpl.
      destruct (Nat.eqb_spec pid (pq_player_id x)) as [<-|Hne]; simpl.
      * rewrite Z0. lia.
      * lia.
    + unfold count_searching at 2; simpl. rewrite Nat.eqb_refl. simpl.
      rewrite Z0. lia.
Qed.

Lemma join_matchmaking_idempotent_witness :
  let st := mkStore [10%nat; 20%nat] [(10%nat, 1200)]
              [mkPlayerQueue 1 10 (mkPrefs [3] 200 "ranked"%string 120) 1200
                 "ranked"%string SEARCHING 0 None None 200 200 120]
              2 [] [] 1 [] [(10%nat, 1%nat)] in
  searching_unique (player_queue st) = true
  /\ join_matchmaking st 10 (mkPrefs [4] 300 "casual"%string 60) 5
     = (st, mkPlayerQueue 1 10 (mkPrefs [3] 200 "ranked"%string 120) 1200
              "ranked"%string SEARCHING 0 None None 200 200 120).
Proof.
  intros st. split; [reflexivity|].
  apply (proj1 (join_matchmaking_idempotent st 10
                  (mkPrefs [4] 300 "casual"%string 60) 5 eq_refl));
    [left; reflexivity | reflexivity | reflexivity].
Defined.

(** ** Candidate query *)

Section CandidateOrder.
Variable e : PlayerQueue.

Let closer (a b : PlayerQueue) : Prop := rating_distance e a <= rating_distance e b.

Lemma insert_by_distance_perm (o : PlayerQueue) (l : list PlayerQueue) :
  Permutation (insert_by_distance e o l) (o :: l).
Proof.
  induction l as [|x r IH]; simpl; [reflexivity|].
  destruct (_ <? _); [reflexivity|].
  rewrite IH. apply perm_swap.
Qed.

Lemma insert_by_distance_sorted (o : PlayerQueue) (l : list PlayerQueue) :
  Sorted closer l -> Sorted closer (insert_by_distance e o l).
Proof.
  induction 1 as [|x r Sr IH Hd]; simpl.
  - repeat constructor.
  - destruct (Z.ltb_spec (rating_distance e o) (rating_distance e x)).
    + constructor; [constructor; auto|]. constructor. unfold closer; lia.
    + constructor; auto.
      destruct r as [|y r']; simpl.
      * constructor. unfold closer; lia.
      * inversion Hd; subst.
        destruct (_ <? _); constructor; unfold closer in *; lia.
Qed.

Lemma fold_insert_perm (l acc : list PlayerQueue) :
  Permutation (fold_left (fun acc o => insert_by_distance e o acc) l acc)
              (l ++ acc).
Proof.
  revert acc; induction l as [|x l IH]; intros acc; simpl; [reflexivity|].
  rewrite IH, insert_by_distance_perm. symmetry. apply Permutation_middle.
Qed.

Lemma fold_insert_sorted (l acc : list PlayerQueue) :
  Sorted closer acc ->
  Sorted closer (fold_left (fun acc o => insert_by_distance e o acc) l acc).
Proof.
  revert acc; induction l as [|x l IH]; intros acc H; simpl; auto.
  apply IH, insert_by_distance_sorted, H.
Qed.

Lemma firstn_sorted (n : nat) (l : list PlayerQueue) :
  Sorted closer l -> Sorted closer (firstn n l).
Proof.
  revert l; induction n as [|n IH]; intros l H; simpl; [constructor|].
  destruct H as [|x r Sr Hd]; [constructor|].
  constructor; [now apply IH|].
  destruct n, r; simpl; constructor; inversion Hd; auto.
Qed.

End CandidateOrder.

(** The stable-sort plan is one of the executions the query admits. *)
Lemma query_candidates_admissible (q : list PlayerQueue) (e : PlayerQueue) :
  candidate_query_result q e (query_candidates q e).
Proof.
  exists (fold_left (fun acc o => insert_by_distance e o acc)
                    (filter (is_candidate e) q) []).
  split; [|split].
  - rewrite fold_insert_perm, app_nil_r. reflexivity.
  - apply fold_insert_sorted. constructor.
  - reflexivity.
Qed.

(** Claim C6, amended: every result the candidate query can return has at
    most ten rows, each an entry of the queue other than [e], Searching, of
    the same queue type and with a rating within [e]'s current radius, and
    the rows come in ascending order of rating distance; rows at the same
    distance come in an order the query leaves open. *)
Theorem candidate_query_sound (q : list PlayerQueue) (e : PlayerQueue)
    (res : list PlayerQueue) :
  candidate_query_result q e res ->
  (List.length res <= 10)%nat
  /\ (forall o, In o res ->
        In o q /\ pq_id o <> pq_id e /\ status o = SEARCHING
        /\ queue_type o = queue_type e
        /\ skill_rating e - current_rating_range e <= skill_rating o
           <= skill_rating e + current_rating_range e)
  /\ Sorted (fun a b => rating_distance e a <= rating_distance e b) res.
Proof.
  intros [l [Hp [Hs ->]]].
  split; [|split].
  - rewrite length_firstn. lia.
  - intros o Ho.
    assert (Ho' : In o l)
      by (rewrite <- (firstn_skipn 10 l); apply in_or_app; left; exact Ho).
    apply (Permutation_in _ Hp) in Ho'. clear Ho; rename Ho' into Ho. apply filter_In in Ho as [Hq Hc].
    unfold is_candidate, is_searching in Hc.
    repeat rewrite andb_true_iff in Hc.
    destruct Hc as [[[[H1 H2] H3] H4] H5].
    apply negb_true_iff, Nat.eqb_neq in H1.
    apply String.eqb_eq in H3. apply Z.leb_le in H4, H5.
    destruct (status o); try discriminate H2.
    repeat split; auto.
  - now apply firstn_sorted.
Qed.

Lemma candidate_query_sound_witness :
  candidate_query_result ex_queue ex_self [ex_late; ex_early]
  /\ (List.length [ex_late; ex_early] <= 10)%nat.
Proof.
  assert (H : candidate_query_result ex_queue ex_self [ex_late; ex_early]).
  { exists [ex_late; ex_early]. split; [|split].
    - vm_compute. apply Permutation_refl.
    - repeat constructor; vm_compute; discriminate.
    - reflexivity. }
  split; [exact H|].
  apply (candidate_query_sound ex_queue ex_self _ H).
Defined.

(** Claim C6, as stated, fails: the query has no tie-break on join time.
    Entries 2 and 3 lie at the same distance from entry 1, entry 3 joined
    first, and yet the query may return entry 2 before entry 3 (the
    stable-sort plan in table order does). *)
Lemma candidate_tie_counterexample :
  candidate_query_result ex_queue ex_self [ex_late; ex_early]
  /\ query_candidates ex_queue ex_self = [ex_late; ex_early]
  /\ rating_distance ex_self ex_late = rating_distance ex_self ex_early
  /\ joined_at ex_early < joined_at ex_late.
Proof.
  assert (Hq : query_candidates ex_queue ex_self = [ex_late; ex_early])
    by reflexivity.
  split; [rewrite <- Hq; apply query_candidates_admissible|].
  split; [exact Hq|].
  split; reflexivity.
Qed.

(** ** Radius expansion *)

(** One call either leaves the entry unchanged or expands it: then at
    least 30 s have passed since the join and since the previous
    expansion, the radius grows by 50 up to the cap of three times the
    initial radius, and the expansion instant is recorded. *)
Lemma maybe_expand_cases (e : PlayerQueue) (now : Z) :
  maybe_expand_search_criteria e now = e
  \/ (maybe_expand_search_criteria e now
        = with_range e (Z.min (current_rating_range e + 50)
                              (initial_rating_range e * 3)) now
      /\ seconds 30 <= now - joined_at e
      /\ current_rating_range e < initial_rating_range e * 3
      /\ (forall t, search_expanded_at e = Some t -> seconds 30 <= now - t)).
Proof.
  unfold maybe_expand_search_criteria.
  destruct (Z.leb_spec (seconds 30) (now - joined_at e)); cbn [andb];
    [|now left].
  destruct (Z.ltb_spec (current_rating_range e) (initial_rating_range e * 3));
    [|now left].
  destruct (search_expanded_at e) as [t|] eqn:S.
  - destruct (Z.leb_spec (seconds 30) (now - t)); [|now left].
    right. repeat split; auto. intros t' H'. injection H' as <-. lia.
  - right. repeat split; auto. intros t' H'. discriminate.
Qed.

(** Claim C7: radius expansion grows the current range by the step of 50
    (capped at three times the initial radius) at most once every 30 s:
    consecutive expansion instants, including the one already recorded on
    the entry, lie at least 30 s apart and each comes at least 30 s after
    the join; and starting from a range within the cap (as every joined
    entry does, its range being its initial radius), the range never
    exceeds three times the initial radius. *)
Theorem expansion_capped_and_spaced (e : PlayerQueue) (ts : list Z) :
  current_rating_range e <= initial_rating_range e * 3 ->
  let '(e', xs) := run_expansions e ts in
  initial_rating_range e' = initial_rating_range e
  /\ current_rating_range e <= current_rating_range e'
     <= initial_rating_range e * 3
  /\ spaced (seconds 30) (opt_cons (search_expanded_at e) xs)
  /\ Forall (fun t => seconds 30 <= t - joined_at e) xs
  /\ (forall now,
        let e1 := maybe_expand_search_criteria e now in
        current_rating_range e1 = current_rating_range e
        \/ current_rating_range e1
           = Z.min (current_rating_range e + 50) (initial_rating_range e * 3)).
Proof.
  intros Hcap.
  assert (Step : forall now,
            let e1 := maybe_expand_search_criteria e now in
            current_rating_range e1 = current_rating_range e
            \/ current_rating_range e1
               = Z.min (current_rating_range e + 50)
                       (initial_rating_range e * 3)).
  { intros now e1. subst e1.
    destruct (maybe_expand_cases e now) as [->|[-> _]]; [now left|now right]. }
  revert e Hcap Step. induction ts as [|t ts IH]; intros e Hcap Step.
  - simpl. repeat split; try lia; auto.
    destruct (search_expanded_at e); simpl; auto.
  - simpl.
    destruct (maybe_expand_cases e t) as [E|[E [Hj [Hlt Hsp]]]].
    + rewrite E, Z.eqb_refl.
      specialize (IH e Hcap).
      destruct (run_expansions e ts) as [e'' xs].
      destruct IH as [I1 [I2 [I3 [I4 _]]]]; [exact Step|].
      repeat split; auto; lia.
    + rewrite E.
      set (e1 := with_range e _ t).
      assert (C1 : current_rating_range e1 <= initial_rating_range e1 * 3)
        by (simpl; lia).
      assert (Step1 : forall now,
            let e2 := maybe_expand_search_criteria e1 now in
            current_rating_range e2 = current_rating_range e1
            \/ current_rating_range e2
               = Z.min (current_rating_range e1 + 50)
                       (initial_rating_range e1 * 3)).
      { intros now e2. subst e2.
        destruct (maybe_expand_cases e1 now) as [->|[-> _]];
          [now left|now right]. }
      specialize (IH e1 C1 Step1).
      destruct (run_expansions e1 ts) as [e'' xs].
      destruct IH as [I1 [I2 [I3 [I4 _]]]].
      assert (Hne : Z.eqb (current_rating_range e1) (current_rating_range e)
                    = false) by (apply Z.eqb_neq; simpl; lia).
      rewrite Hne.
      simpl in I1, I2, I3, I4.
      repeat split; auto; try lia.
      destruct (search_expanded_at e) as [t0|] eqn:S; [|exact I3].
      split; [|exact I3].
      specialize (Hsp t0 eq_refl). exact Hsp.
Qed.

Lemma expansion_capped_and_spaced_witness :
  current_rating_range ex_self <= initial_rating_range ex_self * 3
  /\ run_expansions ex_self
       [seconds 10; seconds 30; seconds 45; seconds 60; seconds 200]
     = (with_range ex_self 250 (seconds 200),
        [seconds 30; seconds 60; seconds 200])
  /\ spaced (seconds 30) [seconds 30; seconds 60; seconds 200].
Proof.
  assert (H : current_rating_range ex_self <= initial_rating_range ex_self * 3)
    by (vm_compute; discriminate).
  assert (R : run_expansions ex_self
                [seconds 10; seconds 30; seconds 45; seconds 60; seconds 200]
              = (with_range ex_self 250 (seconds 200),
                 [seconds 30; seconds 60; seconds 200])) by reflexivity.
  pose proof (expansion_capped_and_spaced ex_self
                [seconds 10; seconds 30; seconds 45; seconds 60; seconds 200] H)
    as T.
  rewrite R in T. destruct T as [_ [_ [T _]]].
  split; [exact H|]. split; [exact R|]. exact T.
Defined.

(** ** The claim protocol *)

Lemma create_game_queue (st : Store) (c : nat) (g : Z) (st' : Store) (gid : nat) :
  create_game st c g = Some (st', gid) ->
  player_queue st' = player_queue st /\ next_queue_id st' = next_queue_id st.
Proof.
  unfold create_game. destruct (negb _); [discriminate|].
  destruct (negb _); [discriminate|]. intros H; injection H as <- _. now split.
Qed.

Lemma join_game_queue (st : Store) (gid pid : nat) (st' : Store) :
  join_game st gid pid = Some st' ->
  player_queue st' = player_queue st /\ next_queue_id st' = next_queue_id st.
Proof.
  unfold join_game. destruct (find _ (games st)); [|discriminate].
  destruct (negb _); [discriminate|]. destruct (negb _); [discriminate|].
  destruct (existsb _ _); [discriminate|]. destruct (Nat.leb _ _); [discriminate|].
  destruct (find _ _); [|discriminate]. intros H; injection H as <-. now split.
Qed.

Lemma create_match_queue (st : Store) (e1 e2 : PlayerQueue) (now : Z) :
  let '(st', r) := create_match st e1 e2 now in
  next_queue_id st' = next_queue_id st
  /\ (player_queue st' = player_queue st
      \/ player_queue st' = mark_matched (player_queue st) (pq_id e1) (pq_id e2) now)
  /\ (mr_success r = true ->
      player_queue st' = mark_matched (player_queue st) (pq_id e1) (pq_id e2) now).
Proof.
  unfold create_match.
  destruct (create_game _ _ _) as [[st1 gid]|] eqn:G;
    [|simpl; split; [reflexivity | split; [left; reflexivity | discriminate]]].
  destruct (create_game_queue _ _ _ _ _ G) as [Q1 N1].
  destruct (join_game _ _ _) as [st2|] eqn:J;
    [|simpl; split; [exact N1 | split; [left; exact Q1 | discriminate]]].
  destruct (join_game_queue _ _ _ _ J) as [Q2 N2].
  destruct (calculate_match_compatibility _ _ _ _); simpl;
    rewrite Q2, Q1, N2, N1;
    (split; [reflexivity | split; [right; reflexivity | intros; reflexivity]]).
Qed.

Lemma create_game_set_queue (st : Store) (q : list PlayerQueue) (c : nat) (g : Z) :
  create_game (set_queue st q) c g
  = option_map (fun p => (set_queue (fst p) q, snd p)) (create_game st c g).
Proof.
  unfold create_game. simpl.
  destruct (negb ((3 <=? g) && (g <=? 10))); [reflexivity|].
  destruct (negb (existsb (Nat.eqb c) (players st))); reflexivity.
Qed.

Lemma join_game_set_queue (st : Store) (q : list PlayerQueue) (gid pid : nat) :
  join_game (set_queue st q) gid pid
  = option_map (fun s => set_queue s q) (join_game st gid pid).
Proof.
  unfold join_game. simpl.
  destruct (find (fun g => Nat.eqb (g_id g) gid) (games st)) as [game|];
    [|reflexivity].
  repeat match goal with
         | |- context [if ?b then _ else _] => destruct b; [reflexivity|]
         end.
  match goal with |- context [find ?f ?l] => destruct (find f l) end;
    reflexivity.
Qed.

(** Whether a claim succeeds does not depend on the queue rows: the claim
    never re-reads the two entries. *)
Lemma create_match_ignores_queue (st : Store) (q : list PlayerQueue)
    (e1 e2 : PlayerQueue) (now : Z) :
  mr_success (snd (create_match (set_queue st q) e1 e2 now))
  = mr_success (snd (create_match st e1 e2 now)).
Proof.
  unfold create_match. rewrite create_game_set_queue.
  match goal with |- context [create_game st ?c ?g] =>
    destruct (create_game st c g) as [[st1 gid]|] end; simpl; [|reflexivity].
  rewrite join_game_set_queue.
  match goal with |- context [join_game st1 ?g ?p] =>
    destruct (join_game st1 g p) end; simpl; [|reflexivity].
  match goal with |- context [calculate_match_compatibility ?a ?b ?c ?d] =>
    destruct (calculate_match_compatibility a b c d) end; reflexivity.
Qed.

(** C1: the claim of [_create_match] is not exclusive.  In general its
    success does not depend on the queue rows at all (the two entries are
    never re-read nor checked to be Searching).  Concretely, two search
    processes over the shared store of [ex_a] and [ex_b] both read the
    queue before either commits, so each selects the other entry; the first
    claim sets both rows to Matched, and the second claim, made by the
    other process from its earlier read, still succeeds: two games and two
    history rows are created for the same pair. *)
Theorem double_claim_race :
  (forall (st : Store) (q : list PlayerQueue) (e1 e2 : PlayerQueue) (now : Z),
      mr_success (snd (create_match (set_queue st q) e1 e2 now))
      = mr_success (snd (create_match st e1 e2 now)))
  /\ select_opponent ex_store ex_a = Some (Some ex_b)
  /\ select_opponent ex_store ex_b = Some (Some ex_a)
  /\ let '(st1, r1) := create_match ex_store ex_a ex_b (seconds 2) in
     let '(st2, r2) := create_match st1 ex_b ex_a (seconds 2) in
     map status (player_queue st1) = [MATCHED; MATCHED]
     /\ mr_success r1 = true /\ mr_success r2 = true
     /\ List.length (games st2) = 2%nat
     /\ List.length (matchmaking_history st2) = 2%nat.
Proof.
  split; [intros; apply create_match_ignores_queue|].
  vm_compute. repeat split.
Qed.

(** ** Integrity checks *)

Module IntegrityFacts.
Import ConsistencyManager.

Lemma ret_read_only {A : Type} (a : A) : read_only (ret a).
Proof. intros db; reflexivity. Qed.

Lemma query_read_only {A : Type} (f : Db -> A) : read_only (query f).
Proof. intros db; reflexivity. Qed.

Lemma read_only_eq {A : Type} (m : M A) (db : Db) :
  read_only m -> m db = (fst (m db), db).
Proof.
  intros H. specialize (H db). destruct (m db) as [a db1]. simpl in *. now subst.
Qed.

Lemma bind_read_only {A B : Type} (m : M A) (f : A -> M B) :
  read_only m -> (forall a, read_only (f a)) -> read_only (bind m f).
Proof.
  intros Hm Hf db. unfold bind. rewrite (read_only_eq m db Hm). apply Hf.
Qed.

Lemma bind_fst {A B : Type} (m : M A) (f : A -> M B) (db : Db) :
  read_only m -> fst (bind m f db) = fst (f (fst (m db)) db).
Proof. intros Hm. unfold bind. now rewrite (read_only_eq m db Hm). Qed.

Create HintDb readonly.

#[local] Hint Resolve ret_read_only query_read_only bind_read_only : readonly.

Lemma check_orphaned_moves_read_only : read_only check_orphaned_moves.
Proof. unfold check_orphaned_moves. eauto with readonly. Qed.

Lemma check_games_read_only (l : list (nat * string)) : read_only (check_games l).
Proof.
  induction l as [|[gid s] r IH]; simpl; [apply ret_read_only|].
  apply bind_read_only; [apply query_read_only|intros c].
  apply bind_read_only; [exact IH|intros; apply ret_read_only].
Qed.

Lemma check_invalid_game_states_read_only : read_only check_invalid_game_states.
Proof.
  unfold check_invalid_game_states.
  apply bind_read_only; [apply query_read_only|apply check_games_read_only].
Qed.

Lemma calculate_actual_efficiency_read_only (pid : nat) :
  read_only (calculate_actual_efficiency pid).
Proof.
  unfold calculate_actual_efficiency.
  apply bind_read_only; [apply query_read_only|].
  intros [|x r]; apply ret_read_only.
Qed.

Lemma check_players_read_only (rows : list (nat * Q * Z)) :
  read_only (check_players rows).
Proof.
  induction rows as [|[[pid se] sw] r IH]; simpl; [apply ret_read_only|].
  apply bind_read_only; [apply calculate_actual_efficiency_read_only|intros a].
  apply bind_read_only; [exact IH|intros; apply ret_read_only].
Qed.

Lemma check_efficiency_mismatches_read_only (n : nat) :
  read_only (check_efficiency_mismatches n).
Proof.
  unfold check_efficiency_mismatches.
  apply bind_read_only; [apply query_read_only|apply check_players_read_only].
Qed.

Lemma check_missing_game_players_read_only : read_only check_missing_game_players.
Proof. unfold check_missing_game_players. eauto with readonly. Qed.

Lemma check_games_result (l : list (nat * string)) (db : Db) :
  map ig_game_id (fst (check_games l db))
  = map fst (filter (fun p => Nat.ltb (count_moves (fst p) db) 9) l).
Proof.
  induction l as [|[gid s] r IH]; [reflexivity|].
  simpl check_games.
  rewrite bind_fst by apply query_read_only.
  rewrite bind_fst by apply check_games_read_only.
  simpl. destruct (Nat.ltb (count_moves gid db) 9); simpl; now rewrite IH.
Qed.

End IntegrityFacts.

Import IntegrityFacts.

(** C8: [_check_invalid_game_states] flags exactly the completed games
    without a winner that have fewer than 9 moves, whatever their grid
    size.  So it does not flag the completed 4x4 game of [ex_db], which has
    no winner and 10 moves on its 16 cells, although its board is not
    full; the reading by board cells flags it. *)
Theorem invalid_game_states_uses_nine :
  (forall db : ConsistencyManager.Db,
      map ConsistencyManager.ig_game_id
        (fst (ConsistencyManager.check_invalid_game_states db))
      = map ConsistencyManager.gr_id
          (filter (fun g => String.eqb (ConsistencyManager.gr_status g) "completed"
                            && match ConsistencyManager.gr_winner_id g with
                               | None => true | Some _ => false end
                            && Nat.ltb (ConsistencyManager.count_moves
                                          (ConsistencyManager.gr_id g) db) 9)
                  (ConsistencyManager.games db)))
  /\ ConsistencyManager.count_moves 1 ConsistencyManager.ex_db = 10%nat
  /\ fst (ConsistencyManager.check_invalid_game_states ConsistencyManager.ex_db) = []
  /\ ConsistencyManager.invalid_game_ids_by_board ConsistencyManager.ex_db = [1%nat].
Proof.
  split.
  - intros db. unfold ConsistencyManager.check_invalid_game_states.
    rewrite bind_fst by apply query_read_only.
    rewrite check_games_result. simpl.
    induction (ConsistencyManager.games db) as [|g r IH]; [reflexivity|].
    simpl. destruct (String.eqb (ConsistencyManager.gr_status g) "completed");
      destruct (ConsistencyManager.gr_winner_id g);
      simpl; try exact IH.
    destruct (Nat.ltb (ConsistencyManager.count_moves (ConsistencyManager.gr_id g) db) 9);
      simpl; now rewrite IH.
  - vm_compute. repeat split.
Qed.

(** C9: [validate_data_integrity] changes no table (players with their
    counters, games, moves, participants, cache rows): it returns the
    database it was given, with a report whose four issue lists are those
    of the four checks run on that database and whose total is the sum of
    their lengths. *)
Theorem validate_data_integrity_read_only (now : Z) (db : ConsistencyManager.Db) :
  let '(report, db') := ConsistencyManager.validate_data_integrity now db in
  db' = db
  /\ ConsistencyManager.issues report
     = ConsistencyManager.mkIssues
         (fst (ConsistencyManager.check_orphaned_moves db))
         (fst (ConsistencyManager.check_invalid_game_states db))
         (fst (ConsistencyManager.check_efficiency_mismatches 100 db))
         (fst (ConsistencyManager.check_missing_game_players db))
  /\ ConsistencyManager.total_issues report
     = (List.length (fst (ConsistencyManager.check_orphaned_moves db))
        + List.length (fst (ConsistencyManager.check_invalid_game_states db))
        + List.length (fst (ConsistencyManager.check_efficiency_mismatches 100 db))
        + List.length (fst (ConsistencyManager.check_missing_game_players db)))%nat.
Proof.
  unfold ConsistencyManager.validate_data_integrity, ConsistencyManager.bind.
  rewrite (read_only_eq _ db check_orphaned_moves_read_only).
  rewrite (read_only_eq _ db check_invalid_game_states_read_only).
  rewrite (read_only_eq _ db (check_efficiency_mismatches_read_only 100)).
  rewrite (read_only_eq _ db check_missing_game_players_read_only).
  simpl. repeat split.
Qed.

(* ===================================================================== *)
(** ** Further properties of the skill calculator *)

Lemma rpower_pos (x : R) : (0 < Rpower 10 x)%R.
Proof. unfold Rpower. apply exp_pos. Qed.

Lemma expected_score_bounds (a b : Z) :
  (0 < expected_score a b < 1)%R.
Proof.
  unfold expected_score.
  set (p := Rpower 10 (IZR (b - a) / 400)).
  assert (Hp : (0 < p)%R) by apply rpower_pos.
  set (x := (1 / (1 + p))%R).
  assert (Hx : (x * (1 + p) = 1)%R) by (unfold x; field; lra).
  assert (Hx0 : (0 < x)%R) by (unfold x; apply Rdiv_lt_0_compat; lra).
  split; [exact Hx0|nra].
Qed.

Lemma expected_score_swap (a b : Z) :
  (expected_score b a = 1 - expected_score a b)%R.
Proof.
  unfold expected_score.
  assert (E : (IZR (a - b) / 400 = - (IZR (b - a) / 400))%R)
    by (rewrite !minus_IZR; field).
  rewrite E, Rpower_Ropp.
  set (p := Rpower 10 (IZR (b - a) / 400)).
  assert (Hp : (0 < p)%R) by apply rpower_pos.
  field. split; lra.
Qed.

Lemma get_k_factor_pos (g : Z) : (0 < IZR (get_k_factor g))%R.
Proof.
  unfold get_k_factor.
  destruct (g <? 20); [|destruct (g <? 100)]; apply IZR_lt; lia.
Qed.

Lemma get_grid_size_modifier_pos (g : Z) : (0 < get_grid_size_modifier g)%R.
Proof.
  unfold get_grid_size_modifier.
  destruct (g =? 3); [lra|]. destruct (g =? 4); [lra|].
  destruct (5 <=? g); lra.
Qed.

Lemma clamp_change_cases (c : R) :
  (clamp_change c = c /\ -50 <= c <= 50
   \/ clamp_change c = 50 /\ 50 <= c
   \/ clamp_change c = -50 /\ c <= -50)%R.
Proof.
  unfold clamp_change, MAX_RATING_CHANGE, Rmin.
  destruct (Rle_dec 50 c) as [H|H].
  - right; left. split; [|exact H]. unfold Rmax.
    match goal with |- context [Rle_dec ?a ?b] => destruct (Rle_dec a b) as [_|N] end;
      [reflexivity|exfalso; apply N; lra].
  - apply Rnot_le_lt in H. unfold Rmax.
    match goal with |- context [Rle_dec ?a ?b] => destruct (Rle_dec a b) as [H'|H'] end.
    + left. split; [reflexivity|lra].
    + apply Rnot_le_lt in H'. right; right. split; [reflexivity|lra].
Qed.

Lemma clamp_change_pos (c : R) :
  (0 < c)%R -> (0 < clamp_change c <= 50)%R.
Proof.
  intros Hc. destruct (clamp_change_cases c) as [[-> ?]|[[-> ?]|[-> ?]]]; lra.
Qed.

Lemma clamp_change_neg (c : R) :
  (c < 0)%R -> (-50 <= clamp_change c < 0)%R.
Proof.
  intros Hc. destruct (clamp_change_cases c) as [[-> ?]|[[-> ?]|[-> ?]]]; lra.
Qed.

Lemma clamp_change_opp (c : R) : (clamp_change (- c) = - clamp_change c)%R.
Proof.
  destruct (clamp_change_cases c) as [[E1 H1]|[[E1 H1]|[E1 H1]]];
    destruct (clamp_change_cases (- c)) as [[E2 H2]|[[E2 H2]|[E2 H2]]];
    rewrite E1, E2; lra.
Qed.

Lemma rating_changes_signs (wr lr wg lg g : Z) :
  let '(wc, lc) := rating_changes wr lr wg lg g in
  (0 < wc <= 50)%R /\ (-50 <= lc < 0)%R.
Proof.
  unfold rating_changes.
  pose proof (expected_score_bounds wr lr).
  pose proof (get_k_factor_pos wg). pose proof (get_k_factor_pos lg).
  pose proof (get_grid_size_modifier_pos g).
  split; [apply clamp_change_pos | apply clamp_change_neg].
  - apply Rmult_lt_0_compat; [apply Rmult_lt_0_compat|]; lra.
  - assert (0 < IZR (get_k_factor lg) * get_grid_size_modifier g
                * (1 - expected_score wr lr))%R
      by (apply Rmult_lt_0_compat; [apply Rmult_lt_0_compat|]; lra).
    nra.
Qed.

Lemma py_int_ge (r : Z) (x : R) : (IZR r <= x)%R -> (r <= py_int x)%Z.
Proof.
  intros H. unfold py_int. destruct (Rle_dec 0 x).
  - destruct (base_Int_part x) as [H1 H2].
    assert (r - 1 < Int_part x)%Z by (apply lt_IZR; rewrite minus_IZR; lra). lia.
  - destruct (base_Int_part (- x)) as [H1 H2].
    assert (Int_part (- x) <= - r)%Z by (apply le_IZR; rewrite opp_IZR; lra). lia.
Qed.

Lemma py_int_le (r : Z) (x : R) : (x <= IZR r)%R -> (py_int x <= r)%Z.
Proof.
  intros H. unfold py_int. destruct (Rle_dec 0 x).
  - destruct (base_Int_part x) as [H1 H2].
    assert (Int_part x <= r)%Z by (apply le_IZR; lra). lia.
  - destruct (base_Int_part (- x)) as [H1 H2].
    assert (- r - 1 < Int_part (- x))%Z
      by (apply lt_IZR; rewrite minus_IZR, opp_IZR; lra). lia.
Qed.

(** X1 ([_expected_score], [predict_match_outcome]): the two players'
    expected scores lie strictly between 0 and 1 and sum to 1, so the
    [1.0 - winner_expected] the calculator uses for the loser is the
    loser's own expected score. *)
Theorem expected_score_complement (a b : Z) :
  (0 < expected_score a b < 1)%R
  /\ (expected_score a b + expected_score b a = 1)%R.
Proof.
  split; [apply expected_score_bounds|].
  rewrite expected_score_swap. lra.
Qed.

(** X2 ([calculate_rating_change]): whatever the ratings, game counts and
    grid size, the winner's new rating lies between [max(100, w)] and
    [max(100, w + 50)] and the loser's between [max(100, l - 50)] and
    [max(100, l)]: a winner never loses points and a loser never gains
    any, beyond the floor of 100. *)
Theorem rating_change_direction (w l wg lg g : Z) :
  let '(nw, nl) := calculate_rating_change w l wg lg g in
  (Z.max 100 w <= nw <= Z.max 100 (w + 50))%Z
  /\ (Z.max 100 (l - 50) <= nl <= Z.max 100 l)%Z.
Proof.
  unfold calculate_rating_change.
  pose proof (rating_changes_signs w l wg lg g) as S.
  destruct (rating_changes w l wg lg g) as [wc lc].
  destruct S as [[W1 W2] [L1 L2]].
  pose proof (py_int_ge w (IZR w + wc) ltac:(lra)).
  pose proof (py_int_le (w + 50) (IZR w + wc) ltac:(rewrite plus_IZR; lra)).
  pose proof (py_int_ge (l - 50) (IZR l + lc) ltac:(rewrite minus_IZR; lra)).
  pose proof (py_int_le l (IZR l + lc) ltac:(lra)).
  lia.
Qed.

(** X3 ([calculate_rating_change]): when both players have the same
    K-factor (both under 20 games, both under 100, or both veterans) the
    loser's clamped change is exactly the negative of the winner's, and
    the winner's is strictly positive and at most 50. *)
Theorem rating_changes_zero_sum (w l wg lg g : Z) :
  get_k_factor wg = get_k_factor lg ->
  let '(wc, lc) := rating_changes w l wg lg g in
  (0 < wc <= 50)%R /\ lc = (- wc)%R.
Proof.
  intros HK.
  pose proof (rating_changes_signs w l wg lg g) as S.
  unfold rating_changes in *. rewrite HK in *.
  destruct S as [S _]. split; [exact S|].
  rewrite <- clamp_change_opp. f_equal. ring.
Qed.

Lemma rating_changes_zero_sum_witness :
  get_k_factor 15 = get_k_factor 5
  /\ let '(wc, lc) := rating_changes 1200 1300 15 5 3 in
     (0 < wc <= 50)%R /\ lc = (- wc)%R.
Proof.
  assert (H : get_k_factor 15 = get_k_factor 5) by reflexivity.
  split; [exact H|]. exact (rating_changes_zero_sum 1200 1300 15 5 3 H).
Defined.

(** X4 ([_update_rating_record], [get_rating_for_grid_size]): after an
    update to [n] on a grid of size 3, 4 or 5, the rating for that grid
    has moved by the same amount as the overall rating (floored at 100)
    and the other grid ratings are unchanged; on any other grid size no
    grid rating changes and [get_rating_for_grid_size] gives [n]. *)
Theorem grid_rating_follows_overall (r : PlayerRating) (n g : Z) (won : bool)
    (now : Z) :
  let r' := update_rating_record r n g won now in
  (forall g', (g' =? 3) || (g' =? 4) || (g' =? 5) = true ->
     get_rating_for_grid_size r' g'
     = if g =? g'
       then Z.max 100 (get_rating_for_grid_size r g' + (n - overall_rating r))
       else get_rating_for_grid_size r g')
  /\ (forall g', (g' =? 3) || (g' =? 4) || (g' =? 5) = false ->
        get_rating_for_grid_size r' g' = n).
Proof.
  cbv zeta. split.
  - intros g' Hg'. unfold get_rating_for_grid_size, update_rating_record.
    destruct (Z.eq_dec g' 3) as [->|M3];
    [|destruct (Z.eq_dec g' 4) as [->|M4];
      [|destruct (Z.eq_dec g' 5) as [->|M5];
        [|apply Z.eqb_neq in M3, M4, M5; rewrite M3, M4, M5 in Hg'; discriminate]]];
    (destruct (Z.eq_dec g 3) as [->|N3];
     [|destruct (Z.eq_dec g 4) as [->|N4];
       [|destruct (Z.eq_dec g 5) as [->|N5]]]);
    repeat match goal with
           | H : ?x <> ?y |- context [?x =? ?y] => rewrite (proj2 (Z.eqb_neq x y) H)
           end;
    cbn -[Z.max];
    destruct (peak_rating r <? n), won; reflexivity.
  - intros g' Hg'. unfold get_rating_for_grid_size.
    destruct (g' =? 3), (g' =? 4), (g' =? 5); try discriminate.
    apply update_rating_record_fields.
Qed.

(** X5 ([_update_rating_record]): every update counts one more game,
    records the game's instant, keeps the peak rating at least the new
    overall rating (the peak never decreases), and never raises a
    deviation that is at least the floor of 50. *)
Theorem update_rating_record_monotone (r : PlayerRating) (n g : Z) (won : bool)
    (now : Z) :
  let r' := update_rating_record r n g won now in
  games_played r' = games_played r + 1
  /\ last_game_at r' = Some now
  /\ peak_rating r' = Z.max (peak_rating r) n
  /\ (50 <= rating_deviation r -> rating_deviation r' <= rating_deviation r)%R.
Proof.
  pose proof (update_rating_record_fields r n g won now) as [_ D].
  cbv zeta. split; [|split; [|split]].
  1-3: unfold update_rating_record;
       destruct (g =? 3), (g =? 4), (g =? 5);
       destruct (Z.ltb_spec (peak_rating r) n), won; simpl;
       first [reflexivity | lia].
  intros Hd. rewrite D. unfold MIN_DEVIATION. apply Rmax_lub; lra.
Qed.

(** X6 ([_update_rating_record]): updates keep the streak invariant; a win
    extends the win streak and ends the loss streak, a loss does the
    opposite, and the best win streak never decreases. *)
Theorem update_rating_record_streaks (r : PlayerRating) (n g : Z) (won : bool)
    (now : Z) :
  streaks_ok r ->
  let r' := update_rating_record r n g won now in
  streaks_ok r'
  /\ best_win_streak r <= best_win_streak r'
  /\ (if won then current_win_streak r' = current_win_streak r + 1
                  /\ current_loss_streak r' = 0
      else current_loss_streak r' = current_loss_streak r + 1
           /\ current_win_streak r' = 0).
Proof.
  intros [H1 [H2 [H3 H4]]]. unfold streaks_ok, update_rating_record.
  destruct (g =? 3), (g =? 4), (g =? 5), (peak_rating r <? n), won; simpl;
    lia.
Qed.

Lemma update_rating_record_streaks_witness :
  streaks_ok (mkPlayerRating 1 1200 1200 1200 1200 0 350 None 1200 None 0 0 0)
  /\ streaks_ok (update_rating_record
                   (mkPlayerRating 1 1200 1200 1200 1200 0 350 None 1200 None 0 0 0)
                   1220 3 true 0).
Proof.
  assert (H : streaks_ok (mkPlayerRating 1 1200 1200 1200 1200 0 350 None 1200 None 0 0 0))
    by (unfold streaks_ok; simpl; lia).
  split; [exact H|].
  exact (proj1 (update_rating_record_streaks _ 1220 3 true 0 H)).
Defined.

(** X7 ([calculate_match_quality]): the quality lies in [0,1] for every
    pair of ratings and deviations, and is symmetric in the two players. *)
Theorem match_quality_range_sym (r1 r2 : Z) (d1 d2 : R) :
  (0 <= calculate_match_quality r1 r2 d1 d2 <= 1)%R
  /\ calculate_match_quality r1 r2 d1 d2 = calculate_match_quality r2 r1 d2 d1.
Proof.
  split.
  - unfold calculate_match_quality.
    set (a := Rmax 0 _). set (b := Rmax 0 _).
    assert (0 <= a)%R by apply Rmax_l. assert (0 <= b)%R by apply Rmax_l.
    split; [|apply Rmin_l].
    apply Rmin_glb; lra.
  - unfold calculate_match_quality.
    rewrite (abs_diff_sym r1 r2), (Rplus_comm d1 d2). reflexivity.
Qed.

(** X8 ([predict_match_outcome]): the three reported probabilities are
    positive and sum to 1, the confidence lies in [0,1], and swapping the
    two players swaps the two win probabilities and keeps the draw
    probability and the confidence. *)
Theorem predict_match_outcome_distribution (r1 r2 : Z) :
  let p := predict_match_outcome r1 r2 in
  let p' := predict_match_outcome r2 r1 in
  (0 < player1_win_probability p)%R /\ (0 < player2_win_probability p)%R
  /\ (0 < draw_probability p)%R
  /\ (player1_win_probability p + player2_win_probability p
      + draw_probability p = 1)%R
  /\ (0 <= confidence p <= 1)%R
  /\ player1_win_probability p' = player2_win_probability p
  /\ player2_win_probability p' = player1_win_probability p
  /\ draw_probability p' = draw_probability p
  /\ confidence p' = confidence p.
Proof.
  cbv zeta. unfold predict_match_outcome. cbn [player1_win_probability
    player2_win_probability draw_probability confidence].
  rewrite (abs_diff_sym r2 r1), (expected_score_swap r1 r2).
  set (e := expected_score r1 r2).
  assert (He : (0 < e < 1)%R) by apply expected_score_bounds.
  set (d := Rmax _ _).
  assert (Hd : (5 / 100 <= d)%R) by apply Rmax_l.
  assert (Hdiff : (0 <= IZR (Z.abs (r1 - r2)))%R)
    by (apply IZR_le; apply Z.abs_nonneg).
  replace (1 - (1 - e))%R with e by ring.
  replace (1 - e + e + d)%R with (e + (1 - e) + d)%R by ring.
  set (t := (e + (1 - e) + d)%R).
  assert (Ht : (0 < t)%R) by (unfold t; lra).
  repeat split.
  - apply Rdiv_lt_0_compat; lra.
  - apply Rdiv_lt_0_compat; lra.
  - apply Rdiv_lt_0_compat; lra.
  - unfold t. field. lra.
  - apply Rmin_glb; lra.
  - apply Rmin_l.
Qed.

(* ===================================================================== *)
(** ** Further properties of the matchmaking service *)

Lemma select_best_inv (prefs : Prefs) (rating : Z) (cands : list PlayerQueue)
    (best : option (PlayerQueue * Q)) (res : option (PlayerQueue * Q)) :
  select_best prefs rating cands best = Some res ->
  (res = best \/ exists o s, res = Some (o, s) /\ In o cands
                             /\ compat_of prefs rating o = Some s
                             /\ (3 # 10 < s)%Q)
  /\ (forall bo bs, best = Some (bo, bs) -> exists ro rs, res = Some (ro, rs) /\ (bs <= rs)%Q)
  /\ (forall o s, In o cands -> compat_of prefs rating o = Some s -> (3 # 10 < s)%Q ->
        exists ro rs, res = Some (ro, rs) /\ (s <= rs)%Q).
Proof.
  revert best.
  induction cands as [|o rest IH]; intros best H; simpl in H.
  - injection H as <-. split; [left; reflexivity|]. split.
    + intros bo bs ->. exists bo, bs. split; [reflexivity|apply Qle_refl].
    + intros o s [].
  - unfold compat_of in *.
    destruct (calculate_match_compatibility prefs (pq_preferences o) rating
                (skill_rating o)) as [score|] eqn:Hc; [|discriminate].
    set (best' := if negb (Qle_bool score (3 # 10)) then _ else best) in H.
    destruct (IH best' H) as [I1 [I2 I3]].
    assert (Hb' : forall bo bs, best = Some (bo, bs) ->
                  exists b'o b's, best' = Some (b'o, b's) /\ (bs <= b's)%Q).
    { intros bo bs ->. subst best'.
      destruct (Qle_bool score (3 # 10)) eqn:Hq; simpl.
      - exists bo, bs. split; [reflexivity|apply Qle_refl].
      - destruct (Qle_bool score bs) eqn:Hs; simpl.
        + exists bo, bs. split; [reflexivity|apply Qle_refl].
        + exists o, score. split; [reflexivity|].
          apply Qlt_le_weak, Qnot_le_lt. intros C.
          apply Qle_bool_iff in C. congruence. }
    split; [|split].
    + destruct I1 as [->|[o' [s' [E [Hin [Hc' Hs']]]]]].
      * subst best'. destruct (Qle_bool score (3 # 10)) eqn:Hq; simpl;
          [left; reflexivity|].
        assert (Hgt : (3 # 10 < score)%Q).
        { apply Qnot_le_lt. intros C. apply Qle_bool_iff in C. congruence. }
        destruct best as [[bo bs]|].
        -- destruct (Qle_bool score bs); [left; reflexivity|].
           right. exists o, score. repeat split; simpl; auto.
        -- right. exists o, score. repeat split; simpl; auto.
      * right. exists o', s'. repeat split; simpl; auto.
    + intros bo bs Hb. destruct (Hb' bo bs Hb) as [b'o [b's [E Hle]]].
      destruct (I2 b'o b's E) as [ro [rs [E' Hle']]].
      exists ro, rs. split; [exact E'|]. eapply Qle_trans; eauto.
    + intros o' s' [<-|Hin] Hc' Hgt.
      * rewrite Hc in Hc'. injection Hc' as <-.
        assert (Hq : Qle_bool score (3 # 10) = false).
        { destruct (Qle_bool score (3 # 10)) eqn:Hq; [|reflexivity].
          apply Qle_bool_iff in Hq. exfalso. apply (Qlt_not_le _ _ Hgt Hq). }
        assert (Hb'' : exists b'o b's, best' = Some (b'o, b's) /\ (score <= b's)%Q).
        { subst best'. rewrite Hq. simpl. destruct best as [[bo bs]|].
          - destruct (Qle_bool score bs) eqn:Hs; simpl.
            + exists bo, bs. split; [reflexivity|]. apply Qle_bool_iff; exact Hs.
            + exists o, score. split; [reflexivity|apply Qle_refl].
          - exists o, score. split; [reflexivity|apply Qle_refl]. }
        destruct Hb'' as [b'o [b's [E Hle]]].
        destruct (I2 b'o b's E) as [ro [rs [E' Hle']]].
        exists ro, rs. split; [exact E'|]. eapply Qle_trans; eauto.
      * apply (I3 o' s' Hin Hc' Hgt).
Qed.

Lemma select_best_error (prefs : Prefs) (rating : Z) (cands : list PlayerQueue)
    (best : option (PlayerQueue * Q)) :
  select_best prefs rating cands best = None ->
  exists o, In o cands /\ compat_of prefs rating o = None.
Proof.
  revert best. induction cands as [|o rest IH]; intros best H; simpl in H;
    [discriminate|].
  unfold compat_of in *.
  destruct (calculate_match_compatibility prefs (pq_preferences o) rating
              (skill_rating o)) eqn:Hc.
  - destruct (IH _ H) as [o' [Hin Ho']]. exists o'. split; [right|]; auto.
  - exists o. split; [left|]; auto.
Qed.

(** X9 ([_select_best_opponent]): the opponent chosen among the candidates
    is one of them, scored above 0.3, with a score at least that of every
    candidate; when no candidate scores above 0.3 none is chosen; the
    selection fails only when scoring some candidate raises. *)
Theorem select_best_opponent_maximal (prefs : Prefs) (rating : Z)
    (cands : list PlayerQueue) :
  match select_best prefs rating cands None with
  | None => exists o, In o cands /\ compat_of prefs rating o = None
  | Some None =>
      forall o s, In o cands -> compat_of prefs rating o = Some s -> (s <= 3 # 10)%Q
  | Some (Some (o, s)) =>
      In o cands /\ compat_of prefs rating o = Some s /\ (3 # 10 < s)%Q
      /\ forall o' s', In o' cands -> compat_of prefs rating o' = Some s' -> (s' <= s)%Q
  end.
Proof.
  destruct (select_best prefs rating cands None) as [res|] eqn:H.
  2: exact (select_best_error _ _ _ _ H).
  destruct (select_best_inv _ _ _ _ _ H) as [I1 [_ I3]].
  destruct res as [[o s]|].
  - destruct I1 as [E|[o1 [s1 [E [Hin [Hc Hs]]]]]]; [discriminate|].
    injection E as -> ->. repeat split; auto.
    intros o' s' Hin' Hc'.
    destruct (Qlt_le_dec (3 # 10) s') as [Hgt|Hle].
    + destruct (I3 o' s' Hin' Hc' Hgt) as [ro [rs [E Hle]]].
      injection E as -> ->. exact Hle.
    + eapply Qle_trans; [exact Hle|]. apply Qlt_le_weak; exact Hs.
  - intros o s Hin Hc. destruct (Qlt_le_dec (3 # 10) s) as [Hgt|Hle]; [|exact Hle].
    destruct (I3 o s Hin Hc Hgt) as [ro [rs [E _]]]. discriminate.
Qed.

(** X10 ([leave_matchmaking]): leaving reports whether the player had a
    Searching row; afterwards the player has no Searching row and no
    registered search task, the queue has as many rows as before, and the
    rows of every other player are unchanged and in the same order. *)
Theorem leave_matchmaking_effects (st : Store) (pid : nat) (now : Z) :
  let '(st', removed) := leave_matchmaking st pid now in
  removed = existsb (fun x => Nat.eqb (pq_player_id x) pid && is_searching x)
                    (player_queue st)
  /\ count_searching (player_queue st') pid = 0%nat
  /\ (forall kv, In kv (active_searches st') -> fst kv <> pid)
  /\ List.length (player_queue st') = List.length (player_queue st)
  /\ filter (fun x => negb (Nat.eqb (pq_player_id x) pid)) (player_queue st')
     = filter (fun x => negb (Nat.eqb (pq_player_id x) pid)) (player_queue st).
Proof.
  unfold leave_matchmaking. simpl.
  split; [|split; [|split; [|split]]].
  - induction (player_queue st) as [|x q IH]; [reflexivity|].
    simpl. destruct (Nat.eqb (pq_player_id x) pid && is_searching x); simpl.
    + reflexivity.
    + exact IH.
  - unfold count_searching.
    induction (player_queue st) as [|x q IH]; [reflexivity|].
    simpl. destruct (Nat.eqb (pq_player_id x) pid && is_searching x) eqn:E; simpl.
    + unfold is_searching, with_status. simpl.
      rewrite andb_false_r. exact IH.
    + rewrite E. exact IH.
  - intros kv Hin. unfold remove_active in Hin. apply filter_In in Hin as [_ H].
    apply negb_true_iff, Nat.eqb_neq in H. exact H.
  - apply length_map.
  - induction (player_queue st) as [|x q IH]; [reflexivity|].
    simpl. destruct (Nat.eqb (pq_player_id x) pid) eqn:E; simpl.
    + destruct (is_searching x); simpl; rewrite ?E; simpl; exact IH.
    + rewrite E. simpl. f_equal. exact IH.
Qed.

Lemma find_app_none {A} (f : A -> bool) (l1 l2 : list A) :
  find f l1 = None -> find f (l1 ++ l2) = find f l2.
Proof.
  induction l1 as [|x l1 IH]; simpl; [reflexivity|].
  destruct (f x); [discriminate|exact IH].
Qed.

(** X11 ([_get_player_rating]): getting a player's rating creates at most
    one row, with the default rating 1200, and only when the player has
    none; a second call finds that row and changes nothing. *)
Theorem get_player_rating_idempotent (st : Store) (pid : nat) :
  let '(st1, r1) := get_player_rating st pid in
  r1 = rating_of st pid
  /\ (player_ratings st1 = player_ratings st
      \/ player_ratings st1 = player_ratings st ++ [(pid, DEFAULT_RATING)])
  /\ get_player_rating st1 pid = (st1, r1).
Proof.
  unfold get_player_rating, rating_of.
  destruct (find (fun r => Nat.eqb (fst r) pid) (player_ratings st))
    as [[k r]|] eqn:F.
  - rewrite F. split; [reflexivity|]. split; [left; reflexivity|]. reflexivity.
  - simpl. split; [reflexivity|]. split; [right; reflexivity|].
    rewrite (find_app_none _ _ _ F). simpl. rewrite Nat.eqb_refl. reflexivity.
Qed.

(** X12 ([join_matchmaking]): a player without a Searching row gets a new
    row appended with the next queue id, status Searching, the player's
    rating (1200 for a player without a rating row), both rating ranges
    equal to the requested maximal rating difference and the stored
    preferences; the player's search task is registered and the player now
    has exactly one Searching row. *)
Theorem join_matchmaking_new_entry (st : Store) (pid : nat) (p : Prefs) (now : Z) :
  find (fun e => Nat.eqb (pq_player_id e) pid && is_searching e) (player_queue st)
    = None ->
  let '(st', e) := join_matchmaking st pid p now in
  pq_id e = next_queue_id st
  /\ pq_player_id e = pid
  /\ status e = SEARCHING
  /\ skill_rating e = rating_of st pid
  /\ initial_rating_range e = max_rating_difference p
  /\ current_rating_range e = max_rating_difference p
  /\ pq_preferences e = prefs_roundtrip p
  /\ player_queue st' = player_queue st ++ [e]
  /\ next_queue_id st' = S (next_queue_id st)
  /\ In (pid, pq_id e) (active_searches st')
  /\ count_searching (player_queue st') pid = 1%nat.
Proof.
  intros F. unfold join_matchmaking. rewrite F.
  pose proof (get_player_rating_queue st pid) as [Q N].
  pose proof (get_player_rating_idempotent st pid) as G.
  destruct (get_player_rating st pid) as [st1 rating] eqn:E.
  destruct G as [Hr _]. simpl in Q, N.
  simpl. rewrite Q, N.
  repeat split; auto.
  - rewrite count_searching_app.
    assert (H0 : count_searching (player_queue st) pid = 0%nat).
    { unfold count_searching.
      destruct (filter _ _) as [|x r] eqn:Fl; [reflexivity|].
      assert (Hx : In x (filter (fun e => Nat.eqb (pq_player_id e) pid && is_searching e)
                                (player_queue st))) by (rewrite Fl; left; reflexivity).
      apply filter_In in Hx as [Hx Hp].
      pose proof (find_none _ _ F x Hx) as Hf. cbn beta in Hf, Hp.
      rewrite Hf in Hp. discriminate. }
    rewrite H0. unfold count_searching. simpl. rewrite Nat.eqb_refl. reflexivity.
Qed.

Lemma join_matchmaking_new_entry_witness :
  find (fun e => Nat.eqb (pq_player_id e) 30 && is_searching e) (player_queue ex_store)
    = None
  /\ let '(st', e) := join_matchmaking ex_store 30 ex_prefs 0 in
     pq_id e = 3%nat /\ skill_rating e = 1200.
Proof.
  assert (F : find (fun e => Nat.eqb (pq_player_id e) 30 && is_searching e)
                (player_queue ex_store) = None) by reflexivity.
  split; [exact F|].
  pose proof (join_matchmaking_new_entry ex_store 30 ex_prefs 0 F) as T.
  destruct (join_matchmaking ex_store 30 ex_prefs 0) as [st' e].
  destruct T as [T1 [_ [_ [T4 _]]]]. split; [exact T1|exact T4].
Defined.

Lemma find_all_false {A} (f : A -> bool) (l : list A) :
  (forall y, In y l -> f y = false) -> find f l = None.
Proof.
  induction l as [|x l IH]; intros H; simpl; [reflexivity|].
  rewrite (H x (or_introl eq_refl)). apply IH. intros y Hy. apply H. right; exact Hy.
Qed.

Lemma filter_all_false {A} (f : A -> bool) (l : list A) :
  (forall y, In y l -> f y = false) -> filter f l = [].
Proof.
  induction l as [|x l IH]; intros H; simpl; [reflexivity|].
  rewrite (H x (or_introl eq_refl)). apply IH. intros y Hy. apply H. right; exact Hy.
Qed.

Lemma existsb_In_nat (p : nat) (l : list nat) :
  existsb (Nat.eqb p) l = true <-> In p l.
Proof.
  rewrite existsb_exists. split.
  - intros [x [Hx E]]. apply Nat.eqb_eq in E. subst. exact Hx.
  - intros H. exists p. split; [exact H|apply Nat.eqb_refl].
Qed.

Lemma fold_min_spec (r : list Z) (a : Z) :
  (fold_left Z.min r a = a \/ In (fold_left Z.min r a) r)
  /\ fold_left Z.min r a <= a /\ (forall x, In x r -> fold_left Z.min r a <= x).
Proof.
  revert a. induction r as [|b r IH]; intros a; simpl.
  - split; [left; reflexivity|]. split; [lia|]. intros x [].
  - destruct (IH (Z.min a b)) as [[E|E] [L1 L2]].
    + split.
      * destruct (Z.min_spec a b) as [[_ M]|[_ M]]; rewrite E, M;
          [left; reflexivity|right; left; reflexivity].
      * split; [lia|]. intros x [<-|Hx]; [lia|]. apply L2; exact Hx.
    + split; [right; right; exact E|]. split; [lia|].
      intros x [<-|Hx]; [lia|]. apply L2; exact Hx.
Qed.

Lemma min_list_spec (l : list Z) (d : Z) :
  (l = [] -> min_list l d = d)
  /\ (l <> [] -> In (min_list l d) l /\ forall x, In x l -> min_list l d <= x).
Proof.
  split; [intros ->; reflexivity|].
  intros Hne. destruct l as [|a r]; [contradiction|]. simpl.
  destruct (fold_min_spec r a) as [[E|E] [L1 L2]]; split.
  - left; symmetry; exact E.
  - intros x [<-|Hx]; [exact L1|apply L2; exact Hx].
  - right; exact E.
  - intros x [<-|Hx]; [exact L1|apply L2; exact Hx].
Qed.

Lemma create_match_success_shape (st : Store) (e1 e2 : PlayerQueue) (now : Z) :
  (forall g, In g (games st) -> (g_id g < next_game_id st)%nat) ->
  (forall gp, In gp (game_players st) -> (gp_game_id gp < next_game_id st)%nat) ->
  let gid := next_game_id st in
  let p1 := pq_player_id e1 in
  let p2 := pq_player_id e2 in
  let '(st', r) := create_match st e1 e2 now in
  mr_success r = true ->
  exists score,
    calculate_match_compatibility (pq_preferences e1) (pq_preferences e2)
      (skill_rating e1) (skill_rating e2) = Some score
    /\ (3 <= common_grid_size e1 e2 <= 10)
    /\ In p1 (players st) /\ In p2 (players st) /\ p1 <> p2
    /\ mr_game_id r = Some gid
    /\ games st' = games st ++ [mkGame gid "active" (common_grid_size e1 e2) (Some (pq_player_id e1))]
    /\ game_players st' = game_players st ++ [mkGamePlayer gid p1 1; mkGamePlayer gid p2 2]
    /\ next_game_id st' = S gid
    /\ player_queue st' = mark_matched (player_queue st) (pq_id e1) (pq_id e2) now
    /\ matchmaking_history st'
       = matchmaking_history st
         ++ [mkHistory p1 p2 gid (Z.abs (skill_rating e1 - skill_rating e2))
               (Z.quot (now - joined_at e1) 1000000)
               (Z.quot (now - joined_at e2) 1000000) score]
    /\ active_searches st' = remove_active (remove_active (active_searches st) p1) p2
    /\ players st' = players st /\ player_ratings st' = player_ratings st.
Proof.
  intros Hg Hgp. cbv zeta.
  unfold create_match. fold (common_grid_size e1 e2).
  set (gs := common_grid_size e1 e2).
  unfold create_game.
  destruct ((3 <=? gs) && (gs <=? 10)) eqn:V; simpl; [|cbn; intros ?; discriminate].
  destruct (existsb (Nat.eqb (pq_player_id e1)) (players st)) eqn:P1; simpl; [|cbn; intros ?; discriminate].
  unfold join_game. simpl.
  rewrite find_app_none
    by (apply find_all_false; intros y Hy; apply Nat.eqb_neq;
        specialize (Hg y Hy); lia).
  simpl. rewrite Nat.eqb_refl.
  destruct (existsb (Nat.eqb (pq_player_id e2)) (players st)) eqn:P2; simpl; [|cbn; intros ?; discriminate].
  rewrite existsb_app.
  assert (Old : existsb (fun gp => Nat.eqb (gp_game_id gp) (next_game_id st)
                                   && Nat.eqb (gp_player_id gp) (pq_player_id e2))
                        (game_players st) = false).
  { apply not_true_iff_false. intros C. apply existsb_exists in C as [y [Hy C]].
    apply andb_true_iff in C as [C _]. apply Nat.eqb_eq in C.
    specialize (Hgp y Hy). lia. }
  rewrite Old. simpl. rewrite Nat.eqb_refl. simpl.
  destruct (Nat.eqb (pq_player_id e1) (pq_player_id e2)) eqn:E12; simpl; [cbn; intros ?; discriminate|].
  rewrite filter_app.
  assert (OldF : filter (fun gp => Nat.eqb (gp_game_id gp) (next_game_id st)) (game_players st) = []).
  { apply filter_all_false. intros y Hy. apply Nat.eqb_neq.
    specialize (Hgp y Hy). lia. }
  rewrite OldF. simpl. rewrite Nat.eqb_refl. simpl.
  rewrite <- app_assoc. simpl.
  rewrite find_app_none
    by (apply find_all_false; intros y Hy; apply andb_false_iff; left;
        apply Nat.eqb_neq; specialize (Hgp y Hy); lia).
  simpl. rewrite Nat.eqb_refl. simpl.
  rewrite map_app. simpl. rewrite Nat.eqb_refl.
  assert (Gs : map (fun g => if Nat.eqb (g_id g) (next_game_id st)
                             then mkGame (g_id g) "active" (g_grid_size g) (Some (pq_player_id e1))
                             else g) (games st) = games st).
  { rewrite <- (map_id (games st)) at 2. apply map_ext_in. intros y Hy.
    destruct (Nat.eqb_spec (g_id y) (next_game_id st)) as [C|C]; [|reflexivity].
    specialize (Hg y Hy). lia. }
  rewrite Gs.
  destruct (calculate_match_compatibility _ _ _ _) as [score|] eqn:C; simpl;
    [|cbn; intros ?; discriminate].
  intros _. exists score.
  apply andb_true_iff in V as [V1 V2]. apply Z.leb_le in V1, V2.
  apply existsb_In_nat in P1, P2. apply Nat.eqb_neq in E12.
  repeat split; auto.
Qed.

(** X13 ([_create_match] with [create_game] and [join_game]): when game
    ids are fresh, a successful claim creates exactly one game, with the
    next game id, status active, the chosen grid size and the first player
    to move, registers the two players as its participants in order 1 and
    2, sets both entries to Matched, appends one history row with the
    rating difference, the two waits in whole seconds and the
    compatibility score, and drops the two players' search tasks, leaving
    players and ratings unchanged.  It succeeds only for two distinct
    existing players and a grid size in [3,10]. *)
Theorem create_match_success_effects (st : Store) (e1 e2 : PlayerQueue) (now : Z) :
  (forall g, In g (games st) -> (g_id g < next_game_id st)%nat) ->
  (forall gp, In gp (game_players st) -> (gp_game_id gp < next_game_id st)%nat) ->
  let gid := next_game_id st in
  let p1 := pq_player_id e1 in
  let p2 := pq_player_id e2 in
  let '(st', r) := create_match st e1 e2 now in
  mr_success r = true ->
  exists score,
    calculate_match_compatibility (pq_preferences e1) (pq_preferences e2)
      (skill_rating e1) (skill_rating e2) = Some score
    /\ (3 <= common_grid_size e1 e2 <= 10)
    /\ In p1 (players st) /\ In p2 (players st) /\ p1 <> p2
    /\ mr_game_id r = Some gid
    /\ games st' = games st ++ [mkGame gid "active" (common_grid_size e1 e2) (Some p1)]
    /\ game_players st' = game_players st ++ [mkGamePlayer gid p1 1; mkGamePlayer gid p2 2]
    /\ next_game_id st' = S gid
    /\ player_queue st' = mark_matched (player_queue st) (pq_id e1) (pq_id e2) now
    /\ matchmaking_history st'
       = matchmaking_history st
         ++ [mkHistory p1 p2 gid (Z.abs (skill_rating e1 - skill_rating e2))
               (Z.quot (now - joined_at e1) 1000000)
               (Z.quot (now - joined_at e2) 1000000) score]
    /\ active_searches st' = remove_active (remove_active (active_searches st) p1) p2
    /\ players st' = players st /\ player_ratings st' = player_ratings st.
Proof. exact (create_match_success_shape st e1 e2 now). Qed.

Lemma fresh_ex_store :
  (forall g, In g (games ex_store) -> (g_id g < next_game_id ex_store)%nat)
  /\ (forall gp, In gp (game_players ex_store) ->
                 (gp_game_id gp < next_game_id ex_store)%nat).
Proof. split; intros x []. Qed.

Lemma create_match_success_effects_witness :
  let '(st', r) := create_match ex_store ex_a ex_b 0 in
  mr_success r = true
  /\ exists score,
       calculate_match_compatibility (pq_preferences ex_a) (pq_preferences ex_b)
         (skill_rating ex_a) (skill_rating ex_b) = Some score
       /\ mr_game_id r = Some 1%nat.
Proof.
  pose proof (create_match_success_effects ex_store ex_a ex_b 0
                (proj1 fresh_ex_store) (proj2 fresh_ex_store)) as T.
  cbv zeta in T.
  destruct (create_match ex_store ex_a ex_b 0) as [st' r] eqn:E.
  assert (S : mr_success r = true) by (vm_compute in E; injection E as _ <-; reflexivity).
  split; [exact S|].
  destruct (T S) as [score [C [_ [_ [_ [_ [G _]]]]]]].
  exists score. split; [exact C|exact G].
Defined.

(** X14 ([_create_match]): the game of a successful claim has the
    smallest grid size both players accept, and 3x3 when they accept no
    common size, even if neither of them accepts 3x3. *)
Theorem create_match_grid_choice (st : Store) (e1 e2 : PlayerQueue) (now : Z) :
  (forall g, In g (games st) -> (g_id g < next_game_id st)%nat) ->
  (forall gp, In gp (game_players st) -> (gp_game_id gp < next_game_id st)%nat) ->
  let gs1 := grid_sizes (pq_preferences e1) in
  let gs2 := grid_sizes (pq_preferences e2) in
  let '(st', r) := create_match st e1 e2 now in
  mr_success r = true ->
  exists g, games st' = games st ++ [g] /\ mr_game_id r = Some (g_id g)
    /\ (grids_intersect gs1 gs2 = false -> g_grid_size g = 3)
    /\ (grids_intersect gs1 gs2 = true ->
          In (g_grid_size g) gs1 /\ In (g_grid_size g) gs2
          /\ forall x, In x gs1 -> In x gs2 -> g_grid_size g <= x).
Proof.
  intros Hg Hgp gs1 gs2.
  pose proof (create_match_success_shape st e1 e2 now Hg Hgp) as T.
  cbv zeta in T.
  destruct (create_match st e1 e2 now) as [st' r].
  intros S. destruct (T S) as [_ [_ [_ [_ [_ [_ [Hr [G _]]]]]]]].
  eexists. split; [exact G|]. split; [exact Hr|]. simpl.
  unfold common_grid_size.
  set (c := filter (fun g => existsb (Z.eqb g) gs2) gs1).
  assert (Hc : forall x, In x c <-> In x gs1 /\ In x gs2).
  { intros x. unfold c. rewrite filter_In. rewrite existsb_exists.
    split; intros [H1 H2]; split; auto.
    - destruct H2 as [y [Hy E]]. apply Z.eqb_eq in E. subst. exact Hy.
    - exists x. split; [exact H2|apply Z.eqb_refl]. }
  assert (Hi : grids_intersect gs1 gs2 = true <-> c <> []).
  { unfold grids_intersect. rewrite existsb_exists. split.
    - intros [x [Hx E]] Hn. apply existsb_exists in E as [y [Hy E]].
      apply Z.eqb_eq in E. subst y.
      assert (In x c) by (apply Hc; auto). rewrite Hn in H. contradiction.
    - intros Hn. destruct c as [|x r'] eqn:Ec; [contradiction|].
      assert (Hx : In x (x :: r')) by (left; reflexivity).
      apply Hc in Hx as [H1 H2]. exists x. split; [exact H1|].
      apply existsb_exists. exists x. split; [exact H2|apply Z.eqb_refl]. }
  destruct (min_list_spec c 3) as [M0 M1]. split.
  - intros Hf. apply M0. destruct c; [reflexivity|].
    exfalso. assert (Ht : grids_intersect gs1 gs2 = true) by (apply Hi; discriminate).
    rewrite Hf in Ht. discriminate.
  - intros Ht. apply Hi in Ht. destruct (M1 Ht) as [Hin Hle].
    apply Hc in Hin as [H1 H2]. split; [exact H1|]. split; [exact H2|].
    intros x Hx1 Hx2. apply Hle, Hc. auto.
Qed.

Lemma create_match_grid_choice_witness :
  select_opponent ex_store_disjoint ex_c = Some (Some ex_d)
  /\ let '(st', r) := create_match ex_store_disjoint ex_c ex_d 0 in
     mr_success r = true
     /\ exists g, games st' = games ex_store_disjoint ++ [g] /\ g_grid_size g = 3.
Proof.
  split; [vm_compute; reflexivity|].
  pose proof (create_match_grid_choice ex_store_disjoint ex_c ex_d 0
                (proj1 fresh_ex_store) (proj2 fresh_ex_store)) as T.
  cbv zeta in T.
  destruct (create_match ex_store_disjoint ex_c ex_d 0) as [st' r] eqn:E.
  assert (S : mr_success r = true) by (vm_compute in E; injection E as _ <-; reflexivity).
  split; [exact S|].
  destruct (T S) as [g [G [_ [H3 _]]]].
  exists g. split; [exact G|]. apply H3. reflexivity.
Defined.

(** X15 ([_create_match]): when the second player does not exist (and
    the first does, with validated preferences), the claim fails after
    [create_game] has committed: a waiting game with the first player as
    its only participant is left behind, while the queue entries, the
    history and the search tasks are unchanged. *)
Theorem create_match_orphan_game (st : Store) (e1 e2 : PlayerQueue) (now : Z) :
  valid_prefs (pq_preferences e1) = true ->
  In (pq_player_id e1) (players st) -> ~ In (pq_player_id e2) (players st) ->
  let gid := next_game_id st in
  let '(st', r) := create_match st e1 e2 now in
  mr_success r = false
  /\ games st' = games st ++ [mkGame gid "waiting" (common_grid_size e1 e2) None]
  /\ game_players st' = game_players st ++ [mkGamePlayer gid (pq_player_id e1) 1]
  /\ player_queue st' = player_queue st
  /\ matchmaking_history st' = matchmaking_history st
  /\ active_searches st' = active_searches st.
Proof.
  intros Hv P1 P2 gid.
  assert (V : (3 <=? common_grid_size e1 e2) && (common_grid_size e1 e2 <=? 10) = true).
  { unfold valid_prefs in Hv. repeat rewrite andb_true_iff in Hv.
    destruct Hv as [[[[[[_ HB] _] _] _] _] _]. rewrite forallb_forall in HB.
    unfold common_grid_size.
    destruct (filter _ _) as [|x r] eqn:Ec; [reflexivity|].
    assert (Sub : forall y, In y (x :: r) -> In y (grid_sizes (pq_preferences e1))).
    { intros y Hy. rewrite <- Ec in Hy. apply filter_In in Hy. tauto. }
    destruct (proj2 (min_list_spec (x :: r) 3) ltac:(discriminate)) as [Hin _].
    exact (HB _ (Sub _ Hin)). }
  unfold create_match. fold (common_grid_size e1 e2).
  unfold create_game. rewrite V. simpl.
  apply existsb_In_nat in P1. rewrite P1. simpl.
  unfold join_game. simpl.
  destruct (find (fun g => Nat.eqb (g_id g) (next_game_id st)) _) as [game|];
    [|repeat split; reflexivity].
  assert (P2' : existsb (Nat.eqb (pq_player_id e2)) (players st) = false).
  { apply not_true_iff_false. intros C. apply existsb_In_nat in C. contradiction. }
  rewrite P2'. simpl. repeat split; reflexivity.
Qed.

Lemma create_match_orphan_game_witness :
  valid_prefs (pq_preferences ex_a) = true
  /\ In (pq_player_id ex_a) (players ex_store)
  /\ ~ In (pq_player_id (mkPlayerQueue 2 99 ex_prefs 1220 "ranked"%string SEARCHING
                           0 None None 200 200 120)) (players ex_store)
  /\ mr_success (snd (create_match ex_store ex_a
                        (mkPlayerQueue 2 99 ex_prefs 1220 "ranked"%string SEARCHING
                           0 None None 200 200 120) 0)) = false.
Proof.
  set (e2 := mkPlayerQueue 2 99 ex_prefs 1220 "ranked"%string SEARCHING
               0 None None 200 200 120).
  assert (H1 : valid_prefs (pq_preferences ex_a) = true) by reflexivity.
  assert (H2 : In (pq_player_id ex_a) (players ex_store)) by (simpl; auto).
  assert (H3 : ~ In (pq_player_id e2) (players ex_store))
    by (simpl; intros [C|[C|[]]]; discriminate).
  pose proof (create_match_orphan_game ex_store ex_a e2 0 H1 H2 H3) as T.
  cbv zeta in T. destruct (create_match ex_store ex_a e2 0) as [st' r].
  split; [exact H1|]. split; [exact H2|]. split; [exact H3|]. exact (proj1 T).
Defined.

Lemma update_entry_In (q : list PlayerQueue) (k : nat) (f : PlayerQueue -> PlayerQueue)
    (x : PlayerQueue) :
  In x (update_entry q k f) -> exists y, In y q /\ x = if Nat.eqb (pq_id y) k then f y else y.
Proof. unfold update_entry. intros H. apply in_map_iff in H as [y [<- Hy]]. eauto. Qed.

(** X16 ([_continuous_matchmaking_search] with [_handle_matchmaking_timeout]):
    when a searching entry's match attempt fails, the loop claims nothing,
    and it goes on exactly when the entry has waited no longer than its
    maximum wait time; past that time the entry (every row with its id)
    is set to Timeout, stamped with the current time, and the player's
    search task is removed. *)
Theorem search_iteration_unmatched (st : Store) (k : nat) (now : Z)
    (e : PlayerQueue) (opp : option PlayerQueue) (st1 : Store) (r : MatchResult) :
  find (fun x => Nat.eqb (pq_id x) k) (player_queue st) = Some e ->
  is_searching e = true ->
  find_match st e now = Some (opp, (st1, r)) ->
  mr_success r = false ->
  let '(st', cont, claimed) := search_iteration st k now in
  claimed = None
  /\ (cont = true <-> now - joined_at e <= seconds (pq_max_wait_time e))
  /\ (seconds (pq_max_wait_time e) < now - joined_at e ->
        (forall x, In x (player_queue st') -> pq_id x = k ->
                   status x = TIMEOUT /\ matched_at x = Some now)
        /\ (forall kv, In kv (active_searches st') -> fst kv <> pq_player_id e)).
Proof.
  intros F S M R. unfold search_iteration. rewrite F, S. simpl. rewrite M, R.
  destruct (Z.ltb_spec (seconds (pq_max_wait_time e)) (now - joined_at e)) as [L|L].
  - split; [reflexivity|]. split; [split; [discriminate|lia]|].
    intros _. split.
    + intros x Hx Hk. simpl in Hx. apply update_entry_In in Hx as [y [_ ->]].
      destruct (Nat.eqb_spec (pq_id y) k) as [E|E]; [split; reflexivity|].
      simpl in Hk. contradiction.
    + intros kv Hkv. simpl in Hkv. unfold remove_active in Hkv.
      apply filter_In in Hkv as [_ Hkv]. intros C. rewrite C, Nat.eqb_refl in Hkv.
      discriminate.
  - split; [reflexivity|]. split; [split; [intros _; lia|reflexivity]|].
    intros C. lia.
Qed.

Lemma search_iteration_unmatched_witness :
  seconds (pq_max_wait_time ex_a) < seconds 200 - joined_at ex_a
  /\ let '(st', cont, claimed) := search_iteration ex_lonely 1 (seconds 200) in
     claimed = None
     /\ (cont = true <-> seconds 200 - joined_at ex_a <= seconds (pq_max_wait_time ex_a))
     /\ (seconds (pq_max_wait_time ex_a) < seconds 200 - joined_at ex_a ->
           (forall x, In x (player_queue st') -> pq_id x = 1%nat ->
                      status x = TIMEOUT /\ matched_at x = Some (seconds 200))
           /\ (forall kv, In kv (active_searches st') -> fst kv <> pq_player_id ex_a)).
Proof.
  split; [vm_compute; reflexivity|].
  apply (search_iteration_unmatched ex_lonely 1 (seconds 200) ex_a None ex_lonely
           (mkMatchResult false (pq_player_id ex_a) 0 None));
    vm_compute; reflexivity.
Defined.

Lemma sumn_map_add {A} (f g : A -> nat) (K : list A) :
  sumn (map (fun t => (f t + g t)%nat) K) = (sumn (map f K) + sumn (map g K))%nat.
Proof. induction K as [|t K IH]; simpl; [reflexivity|]. rewrite IH. lia. Qed.

Lemma sumn_map_zero {A} (K : list A) : sumn (map (fun _ => 0%nat) K) = 0%nat.
Proof. induction K; simpl; auto. Qed.

Lemma sumn_indicator (s : string) (K : list string) :
  NoDup K ->
  sumn (map (fun t => if String.eqb s t then 1%nat else 0%nat) K)
  = if in_dec string_dec s K then 1%nat else 0%nat.
Proof.
  induction K as [|t K IH]; intros N; simpl; [reflexivity|].
  apply NoDup_cons_iff in N as [Nt NK]. rewrite (IH NK).
  destruct (string_dec t s) as [E|D].
  - subst t. rewrite String.eqb_refl.
    destruct (in_dec string_dec s K); [contradiction|reflexivity].
  - assert (D' : String.eqb s t = false) by (apply String.eqb_neq; congruence).
    rewrite D'. destruct (in_dec string_dec s K); reflexivity.
Qed.

Lemma sumn_group_sizes (l : list PlayerQueue) (K : list string) :
  NoDup K -> (forall x, In x l -> In (queue_type x) K) ->
  sumn (map (fun t => List.length (filter (fun e => String.eqb (queue_type e) t) l)) K)
  = List.length l.
Proof.
  intros N. induction l as [|x l IH]; intros H; simpl.
  - apply sumn_map_zero.
  - rewrite (map_ext _ (fun t => ((if String.eqb (queue_type x) t then 1 else 0)
                 + List.length (filter (fun e => String.eqb (queue_type e) t) l))%nat)).
    2:{ intros t. simpl. destruct (String.eqb (queue_type x) t); reflexivity. }
    rewrite sumn_map_add, sumn_indicator by exact N.
    rewrite IH by (intros y Hy; apply H; right; exact Hy).
    destruct (in_dec string_dec (queue_type x) K) as [_|C]; [reflexivity|].
    exfalso. apply C, H. left; reflexivity.
Qed.

(** X17 ([get_queue_status]): the total of searching players is the
    number of Searching rows of the queue; the breakdown has one entry per
    queue type, each counting that type's Searching rows (at least one),
    and every Searching row's queue type appears in it. *)
Theorem get_queue_status_counts (st : Store) (now : Z) :
  let qs := get_queue_status st now in
  let rows := filter is_searching (player_queue st) in
  total_searching qs = List.length rows
  /\ NoDup (map qs_queue_type (queue_breakdown qs))
  /\ (forall s, In s (queue_breakdown qs) ->
        (0 < qs_count s)%nat
        /\ qs_count s
           = List.length (filter (fun e => String.eqb (queue_type e) (qs_queue_type s)) rows))
  /\ (forall e, In e rows -> In (queue_type e) (map qs_queue_type (queue_breakdown qs))).
Proof.
  cbv zeta. unfold get_queue_status, queue_stats. simpl.
  set (rows := filter is_searching (player_queue st)).
  set (K := nodup string_dec (map queue_type rows)).
  assert (NK : NoDup K) by apply NoDup_nodup.
  assert (InK : forall x, In x rows -> In (queue_type x) K).
  { intros x Hx. apply nodup_In, in_map. exact Hx. }
  rewrite !map_map. simpl. rewrite map_id. split; [|split; [exact NK|split]].
  - apply sumn_group_sizes; assumption.
  - intros s Hs. apply in_map_iff in Hs as [t [<- Ht]]. simpl.
    split; [|reflexivity].
    apply nodup_In, in_map_iff in Ht as [x [<- Hx]].
    assert (In x (filter (fun e => String.eqb (queue_type e) (queue_type x)) rows))
      by (apply filter_In; split; [exact Hx|apply String.eqb_refl]).
    destruct (filter _ rows); [contradiction|simpl; lia].
  - intros x Hx. apply InK. exact Hx.
Qed.

Module ConsistencyFacts.
Import ConsistencyManager IntegrityFacts ConsistencyViews.

Lemma filter_length_split {A} (f : A -> bool) (l : list A) :
  (List.length (filter f l) + List.length (filter (fun x => negb (f x)) l))%nat
  = List.length l.
Proof.
  induction l as [|x l IH]; simpl; [reflexivity|].
  destruct (f x); simpl; lia.
Qed.

Lemma existsb_false_iff {A} (f : A -> bool) (l : list A) :
  existsb f l = false <-> forall x, In x l -> f x = false.
Proof.
  rewrite <- not_true_iff_false, existsb_exists. split.
  - intros H x Hx. apply not_true_iff_false. intros C. apply H. eauto.
  - intros H [x [Hx C]]. rewrite (H x Hx) in C. discriminate.
Qed.

(** X18 ([cleanup_expired_cache_entries]): the job deletes exactly the
    cache rows that expired before the cutoff [now - days_old] days and
    returns their number; with a non-negative [days_old] no row that
    has not yet expired is deleted, and no other table is touched. *)
Theorem cleanup_expired_cache_effects (now days_old : Z) (db : Db) :
  let cutoff := now - days_old * 86400 * 1000000 in
  let '(n, db') := cleanup_expired_cache_entries now days_old db in
  (n + List.length (leaderboard_cache db') = List.length (leaderboard_cache db))%nat
  /\ (forall r, In r (leaderboard_cache db')
                <-> In r (leaderboard_cache db) /\ cutoff <= expires_at r)
  /\ (0 <= days_old -> forall r, In r (leaderboard_cache db) -> now <= expires_at r ->
        In r (leaderboard_cache db'))
  /\ players db' = players db /\ games db' = games db /\ moves db' = moves db
  /\ game_players db' = game_players db.
Proof.
  cbv zeta. unfold cleanup_expired_cache_entries, delete_cache_where. simpl.
  assert (Hr : forall r, In r (filter (fun r => negb (expires_at r <? now - days_old * 86400 * 1000000))
                                       (leaderboard_cache db))
                <-> In r (leaderboard_cache db)
                    /\ now - days_old * 86400 * 1000000 <= expires_at r).
  { intros r. rewrite filter_In, negb_true_iff, Z.ltb_ge. reflexivity. }
  split; [apply filter_length_split|]. split; [exact Hr|].
  split; [|repeat split].
  intros D r Hin Hn. apply Hr. split; [exact Hin|]. nia.
Qed.

(** X19 ([_check_orphaned_moves]): a move is reported, with its id, game id
    and player id, exactly when no game row has its game id or no player
    row has its player id. *)
Theorem check_orphaned_moves_exact (db : Db) (o : OrphanedMove) :
  In o (fst (check_orphaned_moves db))
  <-> exists m, In m (moves db)
        /\ o = mkOrphaned (mv_id m) (mv_game_id m) (mv_player_id m)
        /\ ((forall g, In g (games db) -> gr_id g <> mv_game_id m)
            \/ (forall p, In p (players db) -> pl_id p <> mv_player_id m)).
Proof.
  unfold check_orphaned_moves, bind, query, ret. simpl.
  rewrite in_map_iff. split.
  - intros [m [<- Hm]]. apply filter_In in Hm as [Hm C].
    exists m. split; [exact Hm|]. split; [reflexivity|].
    apply orb_true_iff in C as [C|C]; apply negb_true_iff in C; rewrite existsb_false_iff in C;
      [left|right]; intros y Hy; apply Nat.eqb_neq, C, Hy.
  - intros [m [Hm [-> C]]]. exists m. split; [reflexivity|].
    apply filter_In. split; [exact Hm|]. apply orb_true_iff.
    destruct C as [C|C]; [left|right]; apply negb_true_iff, existsb_false_iff;
      intros y Hy; apply Nat.eqb_neq, C, Hy.
Qed.

Lemma wins_rows_eq (pid : nat) (db : Db) :
  wins_rows pid db
  = map (fun g => (gr_id g, own_moves pid db g)) (filter (won_with_moves pid db) (games db)).
Proof.
  unfold wins_rows. induction (games db) as [|g gs IH]; simpl; [reflexivity|].
  rewrite IH. unfold won_with_moves, own_moves.
  destruct (gr_winner_id g) as [w|]; [|reflexivity].
  destruct (Nat.eqb w pid); simpl; [|reflexivity].
  destruct (Nat.eqb _ 0); reflexivity.
Qed.

Lemma sum_ge_length (l : list GameRec) (f : GameRec -> nat) :
  (forall g, In g l -> (1 <= f g)%nat) ->
  (List.length l <= fold_right Nat.add 0%nat (map f l))%nat.
Proof.
  induction l as [|g l IH]; intros H; simpl; [lia|].
  specialize (H g (or_introl eq_refl)) as Hg.
  assert (List.length l <= fold_right Nat.add 0%nat (map f l))%nat
    by (apply IH; intros y Hy; apply H; right; exact Hy).
  lia.
Qed.

(** X20 ([_calculate_actual_efficiency]): the actual wins are the games
    the player won with at least one own move (a won game without one is
    not counted), the total moves are the player's moves in those games,
    the efficiency is moves per win, hence at least 1; the result is
    [None] exactly when there is no such game. *)
Theorem calculate_actual_efficiency_spec (pid : nat) (db : Db) :
  let won := filter (won_with_moves pid db) (games db) in
  match fst (calculate_actual_efficiency pid db) with
  | None => won = []
  | Some a =>
      won <> []
      /\ wins a = Z.of_nat (List.length won)
      /\ total_moves a = fold_right Nat.add 0%nat (map (own_moves pid db) won)
      /\ (1 <= efficiency a)%Q
      /\ (efficiency a * inject_Z (wins a) == inject_Z (Z.of_nat (total_moves a)))%Q
  end.
Proof.
  cbv zeta. unfold calculate_actual_efficiency.
  rewrite bind_fst by apply query_read_only. simpl.
  rewrite wins_rows_eq.
  destruct (filter (won_with_moves pid db) (games db)) as [|g gs] eqn:W;
    simpl; [reflexivity|].
  rewrite <- W. rewrite map_map. simpl.
  assert (Pos : forall y, In y (filter (won_with_moves pid db) (games db)) ->
                          (1 <= own_moves pid db y)%nat).
  { intros y Hy. apply filter_In in Hy as [_ Hy]. unfold won_with_moves in Hy.
    destruct (gr_winner_id y); [|discriminate].
    apply andb_true_iff in Hy as [_ Hy]. apply negb_true_iff, Nat.eqb_neq in Hy. lia. }
  pose proof (sum_ge_length _ _ Pos) as Ge.
  assert (Len : (1 <= List.length (filter (won_with_moves pid db) (games db)))%nat)
    by (rewrite W; simpl; lia).
  rewrite length_map.
  set (w := List.length (filter (won_with_moves pid db) (games db))) in *.
  set (t := fold_right Nat.add 0%nat _) in *.
  replace (Z.pos (Pos.of_succ_nat (List.length gs))) with (Z.of_nat w) in *
    by (unfold w; rewrite W; reflexivity).
  split; [rewrite W; discriminate|]. split; [reflexivity|]. split; [reflexivity|].
  assert (Wq : (0 < inject_Z (Z.of_nat w))%Q)
    by (unfold Qlt; simpl; lia).
  replace (own_moves pid db g
           + fold_right Nat.add 0%nat (map (fun x => own_moves pid db x) gs))%nat
    with t in * by (unfold t; rewrite W; reflexivity).
  split.
  - apply Qle_shift_div_l; [exact Wq|].
    rewrite Qmult_1_l. unfold Qle; simpl. lia.
  - field. intros C. rewrite C in Wq. discriminate.
Qed.

Lemma check_players_spec (rows : list (nat * Q * Z)) (db : Db) :
  (List.length (fst (check_players rows db)) <= List.length rows)%nat
  /\ forall mm, In mm (fst (check_players rows db)) ->
       In (em_player_id mm, em_stored_efficiency mm, em_stored_wins mm) rows
       /\ exists a, fst (calculate_actual_efficiency (em_player_id mm) db) = Some a
            /\ em_actual_efficiency mm = efficiency a /\ em_actual_wins mm = wins a
            /\ ((1 # 10) < Qabs (em_stored_efficiency mm - efficiency a)
                \/ em_stored_wins mm <> wins a)%Q.
Proof.
  induction rows as [|[[pid se] sw] r [IHl IHin]]; simpl check_players.
  - split; [simpl; lia|]. intros mm [].
  - rewrite bind_fst by apply calculate_actual_efficiency_read_only.
    rewrite bind_fst by apply check_players_read_only. unfold ret. cbn [fst].
    destruct (fst (calculate_actual_efficiency pid db)) as [a|] eqn:A.
    + match goal with |- context [if ?c then _ else _] => destruct c eqn:D end.
      * split; [simpl; lia|]. intros mm [<-|Hm]; simpl.
        -- split; [left; reflexivity|]. exists a. repeat split; try reflexivity;
             [exact A|].
           apply orb_true_iff in D as [D|D]; apply negb_true_iff in D; [left|right].
           ++ apply Qnot_le_lt. intros C. apply Qle_bool_iff in C. congruence.
           ++ apply Z.eqb_neq in D. exact D.
        -- destruct (IHin mm Hm) as [I E]. split; [right; exact I|exact E].
      * split; [simpl; lia|]. intros mm Hm. destruct (IHin mm Hm) as [I E].
        split; [right; exact I|exact E].
    + split; [simpl; lia|]. intros mm Hm. destruct (IHin mm Hm) as [I E].
      split; [right; exact I|exact E].
Qed.

(** X21 ([_check_efficiency_mismatches] with [_calculate_actual_efficiency]):
    at most [sample_size] mismatches are reported; each is a player with a
    stored efficiency and a positive stored win count, reported with both
    stored values and the recomputed ones, and only when the recomputed
    statistics exist and the efficiencies differ by more than 0.1 or the
    win counts differ. *)
Theorem check_efficiency_mismatches_sound (sample_size : nat) (db : Db) :
  let res := fst (check_efficiency_mismatches sample_size db) in
  (List.length res <= sample_size)%nat
  /\ forall mm, In mm res ->
       (exists p, In p (players db) /\ pl_id p = em_player_id mm
                  /\ pl_efficiency p = Some (em_stored_efficiency mm)
                  /\ pl_total_wins p = em_stored_wins mm /\ 0 < em_stored_wins mm)
       /\ exists a, fst (calculate_actual_efficiency (em_player_id mm) db) = Some a
            /\ em_actual_efficiency mm = efficiency a /\ em_actual_wins mm = wins a
            /\ ((1 # 10) < Qabs (em_stored_efficiency mm - efficiency a)
                \/ em_stored_wins mm <> wins a)%Q.
Proof.
  cbv zeta. unfold check_efficiency_mismatches.
  rewrite bind_fst by apply query_read_only. simpl.
  set (rows := firstn sample_size _).
  destruct (check_players_spec rows db) as [L H]. split.
  - eapply Nat.le_trans; [exact L|]. unfold rows. rewrite length_firstn. lia.
  - intros mm Hm. destruct (H mm Hm) as [I E]. split; [|exact E].
    unfold rows in I. pose proof (in_or_app _ (skipn sample_size
      (flat_map (fun p => match pl_efficiency p with
                          | Some e => if 0 <? pl_total_wins p
                                      then [(pl_id p, e, pl_total_wins p)] else []
                          | None => []
                          end) (players db))) _ (or_introl I)) as I'.
    rewrite firstn_skipn in I'. clear I.
    apply in_flat_map in I' as [p [Hp Ip]].
    destruct (pl_efficiency p) as [e|] eqn:Pe; [|contradiction].
    destruct (0 <? pl_total_wins p) eqn:Pw; [|contradiction].
    destruct Ip as [Ip|[]]. injection Ip as E1 E2 E3.
    exists p. apply Z.ltb_lt in Pw. rewrite E1, E2, E3 in *. auto 6.
Qed.

(** X22 ([_check_missing_game_players]): the reported games are exactly the
    game ids that have moves and whose number of distinct movers differs
    from their number of registered participants, each reported once with
    both numbers; a game without moves is never reported. *)
Theorem check_missing_game_players_exact (db : Db) :
  let res := fst (check_missing_game_players db) in
  NoDup (map mp_game_id res)
  /\ (forall gid, In gid (map mp_game_id res)
        <-> (exists m, In m (moves db) /\ mv_game_id m = gid)
            /\ unique_players gid db <> registered_players gid db)
  /\ (forall x, In x res ->
        mp_players_with_moves x = unique_players (mp_game_id x) db
        /\ mp_registered_players x = registered_players (mp_game_id x) db).
Proof.
  cbv zeta. unfold check_missing_game_players, bind, query, ret. simpl.
  rewrite map_map.
  set (ids := filter _ (move_game_ids db)).
  assert (Hm : map (fun x => mp_game_id (let '(gid, u, r) := x in mkMissing gid u r))
                   (map (fun gid => (gid, unique_players gid db, registered_players gid db)) ids)
               = ids).
  { rewrite map_map. simpl. apply map_id. }
  rewrite <- map_map in Hm. rewrite map_map in Hm. rewrite Hm. split; [|split].
  - apply NoDup_filter, NoDup_nodup.
  - intros gid. unfold ids. rewrite filter_In, negb_true_iff, Nat.eqb_neq.
    unfold move_game_ids. rewrite nodup_In, in_map_iff. firstorder.
  - intros x Hx. rewrite map_map in Hx. apply in_map_iff in Hx as [gid [<- _]].
    split; reflexivity.
Qed.

End ConsistencyFacts.

Module StatsFacts.
Import PlayerStatsManager StatsExamples.




End StatsFacts.

(** X24 ([MatchmakingRequest] validators): a request passes validation
    exactly when its preferences are valid in the sense used by the
    matchmaking code; the validated request keeps the player, the bounds
    and the queue type, and its grid sizes are the same set without
    repetition, so its preferences are valid again. *)
Theorem validate_request_exact (r : MatchmakingRequest) :
  ((exists r', validate_request r = Some r')
   <-> valid_prefs (request_preferences r) = true)
  /\ forall r', validate_request r = Some r' ->
       valid_prefs (request_preferences r') = true
       /\ NoDup (req_grid_sizes r')
       /\ (forall g, In g (req_grid_sizes r') <-> In g (req_grid_sizes r))
       /\ req_player_id r' = req_player_id r
       /\ req_max_rating_difference r' = req_max_rating_difference r
       /\ req_queue_type r' = req_queue_type r
       /\ req_max_wait_time r' = req_max_wait_time r.
Proof.
  assert (Eq : validate_request r
    = (if valid_prefs (request_preferences r)
       then Some (mkRequest (req_player_id r) (nodup Z.eq_dec (req_grid_sizes r))
                    (req_max_rating_difference r) (req_queue_type r) (req_max_wait_time r))
       else None)).
  { destruct r as [pid gs mrd qt mwt].
    unfold validate_request, validate_grid_sizes, validate_queue_type, valid_prefs,
      request_preferences.
    cbn [req_player_id req_grid_sizes req_max_rating_difference req_queue_type
         req_max_wait_time grid_sizes max_rating_difference preferred_queue_type
         max_wait_time].
    destruct gs as [|g gs]; [reflexivity|].
    destruct (forallb (fun size => (3 <=? size) && (size <=? 10)) (g :: gs)),
      (existsb (String.eqb qt) ["ranked"; "casual"; "tournament"]%string),
      (50 <=? mrd), (mrd <=? 1000), (30 <=? mwt), (mwt <=? 600); reflexivity. }
  split.
  - rewrite Eq. destruct (valid_prefs (request_preferences r)).
    + split; [reflexivity|]. intros _. eexists; reflexivity.
    + split; [intros [r' C]; discriminate|discriminate].
  - intros r' Hr. rewrite Eq in Hr.
    destruct (valid_prefs (request_preferences r)) eqn:V; [|discriminate].
    injection Hr as <-. simpl. split; [|split; [|split]]; try (repeat split; reflexivity).
    + unfold valid_prefs, request_preferences in *. simpl in *.
      repeat rewrite andb_true_iff in V. repeat rewrite andb_true_iff.
      destruct V as [[[[[[N F] B1] B2] Q] W1] W2].
      repeat split; try assumption.
      * destruct (req_grid_sizes r) as [|g gs] eqn:G; [discriminate|].
        destruct (nodup Z.eq_dec (g :: gs)) eqn:Nd; [|reflexivity].
        exfalso. assert (Hg : In g (nodup Z.eq_dec (g :: gs)))
          by (apply nodup_In; left; reflexivity).
        rewrite Nd in Hg. contradiction.
      * rewrite forallb_forall in *. intros x Hx. apply F, (nodup_In Z.eq_dec). exact Hx.
    + apply NoDup_nodup.
    + intros g. apply nodup_In.
Qed.
